(** * destruct-js: a shallow embedding of the cursor and of the spec interpreter

    The development follows the two TypeScript sources:
    - [pos_buffer.ts]: [PosBuffer], a buffer with a byte and bit position;
    - [payload_spec.ts]: [PayloadSpec], its instructions and [BufferReader],
      the loop that runs a program over a buffer.

    JavaScript numbers that hold offsets and sizes are integers here ([Z]);
    [Math.floor(x / 8)] is [x / 8] on [Z] (floor division) and the JavaScript
    remainder [x % 8] is [Z.rem x 8] (the sign follows the dividend).
    An object used as a map from names to values is given by its own
    properties ([gmap string Value]) and by whether its prototype is still
    [Object.prototype], which decides what [obj[name]] and
    [obj[name] = value] do on the names that [Object.prototype] has. *)

From Stdlib Require Import ZArith Lia.
From stdpp Require Import base strings gmap list pretty.

Open Scope Z_scope.

(** ** JavaScript values and objects *)

(** [Primitive = number | string | boolean], together with [null] and
    [undefined]: what the callbacks, the decoders and the literals of the
    source produce. [VInherited member] is what reading [member] on a plain
    object gives when the object has no property of its own under that
    name and [Object.prototype] has one: a built-in function, and for
    [__proto__] the prototype object itself. *)
Inductive Value : Type :=
| VUndefined
| VNull
| VNumber (n : Z)
| VString (s : string)
| VBoolean (b : bool)
| VInherited (member : string).

#[global] Instance Value_eq_dec : EqDecision Value.
Proof. solve_decision. Defined.

(** String conversion as a template literal does it. *)
Definition to_string (v : Value) : string :=
  match v with
  | VUndefined => "undefined"
  | VNull => "null"
  | VNumber n => pretty n
  | VString s => s
  | VBoolean true => "true"
  | VBoolean false => "false"
  | VInherited member =>
      if decide (member = "__proto__") then "[object Object]"
      else if decide (member = "constructor")
           then "function Object() { [native code] }"
           else "function " +:+ member +:+ "() { [native code] }"
  end.

(** The own properties of an object: a map from names to values. This is
    also how the object handed to a callback is seen. *)
Abbreviation Obj := (gmap string Value).

(** The property names of [Object.prototype]. *)
Definition Object_prototype_members : list string :=
  [ "constructor"; "__defineGetter__"; "__defineSetter__"; "hasOwnProperty";
    "__lookupGetter__"; "__lookupSetter__"; "isPrototypeOf";
    "propertyIsEnumerable"; "toString"; "valueOf"; "__proto__";
    "toLocaleString" ].

(** A plain object as the interpreter makes and mutates it: its own
    properties and whether its prototype is still [Object.prototype]
    ([ordinary]) or has been set to [null]. *)
Record JsObject : Type := mkJsObject {
  own : Obj;
  ordinary : bool
}.

(** [{}], object literals, and the own properties read and defined
    directly; [o !! name] is the own property of [o] under [name]. *)
#[global] Instance JsObject_empty : Empty JsObject :=
  {| own := ∅; ordinary := true |}.

#[global] Instance JsObject_lookup : Lookup string Value JsObject :=
  fun name o => own o !! name.

#[global] Instance JsObject_singleton : SingletonM string Value JsObject :=
  fun name value => {| own := {[ name := value ]}; ordinary := true |}.

#[global] Instance JsObject_insert : Insert string Value JsObject :=
  fun name value o =>
    {| own := <[name := value]> (own o); ordinary := ordinary o |}.

(** [obj[name]]: the own property, or else what the prototype gives;
    [undefined] when there is neither. *)
Definition get_property (obj : JsObject) (name : string) : Value :=
  match obj !! name with
  | Some value => value
  | None =>
      if ordinary obj && bool_decide (name ∈ Object_prototype_members)
      then VInherited name
      else VUndefined
  end.

(** [obj[name] = value]. An own property is set or created, except that on
    an object without an own [__proto__] whose prototype is
    [Object.prototype] the name [__proto__] reaches the inherited setter:
    [null] removes the prototype, a primitive or [undefined] is ignored,
    and the prototype object is the prototype already, so that the object
    stays as it is. The interpreter itself assigns nothing else under
    [__proto__]; callbacks, decoders and literals are taken to supply what
    their types declare, [Primitive | null], so that a built-in function
    (which the setter would make the prototype) is never assigned there. *)
Definition set_property (obj : JsObject) (name : string) (value : Value)
  : JsObject :=
  match obj !! name with
  | Some _ => <[name := value]> obj
  | None =>
      if bool_decide (name = "__proto__") && ordinary obj
      then match value with
           | VNull => {| own := own obj; ordinary := false |}
           | _ => obj
           end
      else <[name := value]> obj
  end.

(** [delete obj[name]]: only an own property is removed. *)
Definition delete_property (obj : JsObject) (name : string) : JsObject :=
  {| own := delete name (own obj); ordinary := ordinary obj |}.

(** [{ ...a, ...b }]: a new object that gets the own properties of [a] and
    then those of [b], each defined as an own property. *)
Definition spread (a b : JsObject) : Obj := own b ∪ own a.

(** [Object.assign(target, source)]: each own property of [source] is
    assigned to [target] as [target[name] = value] does. *)
Definition Object_assign (target source : JsObject) : JsObject :=
  map_fold (fun name value acc => set_property acc name value) target
    (own source).

(** ** Exceptions *)

(** [Error] is what [pos_buffer.ts] throws, [ParsingError] what the tests of
    [PayloadSpec] expect, [RangeError] what Node's [Buffer] throws when it is
    read out of range. *)
Inductive Exception : Type :=
| Error (message : string)
| ParsingError (message : string)
| RangeError (message : string).

Inductive Outcome (A : Type) : Type :=
| Returns (a : A)
| Throws (e : Exception).

Arguments Returns {A} a.
Arguments Throws {A} e.

#[global] Instance Outcome_ret : MRet Outcome := fun A a => Returns a.

#[global] Instance Outcome_bind : MBind Outcome := fun A B f m =>
  match m with
  | Returns a => f a
  | Throws e => Throws e
  end.

(** ** Buffers *)

Abbreviation Buffer := (list Byte.byte).

Definition byte_value (b : Byte.byte) : Z := Z.of_N (Byte.to_N b).

Definition buffer_length (b : Buffer) : Z := Z.of_nat (length b).

(** [buffer.slice(start)] of Node: a negative [start] counts from the end,
    and the range is clamped to the buffer. *)
Definition Buffer_slice (b : Buffer) (start : Z) : Buffer :=
  if start <? 0
  then drop (Z.to_nat (Z.max 0 (buffer_length b + start))) b
  else drop (Z.to_nat start) b.

Inductive Mode : Type := BE | LE.

#[global] Instance Mode_eq_dec : EqDecision Mode.
Proof. solve_decision. Defined.

(** A position: [{ bytes: number, bits: number }]. *)
Record Offset : Type := mkOffset { bytes : Z; bits : Z }.

(** ** pos_buffer.ts *)

Module PosBuffer.

Record BufferOptions : Type := mkBufferOptions {
  endianness : option Mode;
  offset0 : option Offset
}.

Record t : Type := mkPosBuffer {
  _buffer : Buffer;
  offsetBytes : Z;
  offsetBits : Z;
  options : BufferOptions
}.

(** [TypeOptions]; [size], [encoding], [terminator] and [dp] are read by the
    data types only, [then_] by [read]. *)
Record TypeOptions : Type := mkTypeOptions {
  size : option Z;
  encoding : option string;
  terminator : option (string + Z);
  dp : option Z;
  then_ : option (Value -> Value)
}.

(** An instance of a data type (the classes of [types.ts], which [read] and
    [peek] only use through this interface): [size0] is what [.size] gives
    on the fresh instance, [execute] gives the decoded value together with
    what [.size] gives once [execute] has run. *)
Record DataType : Type := mkDataType {
  size0 : Z;
  execute : t -> Outcome (Value * Z)
}.

(** [new dataType(options)]. *)
Definition DataTypeCtor : Type := option TypeOptions -> DataType.

(** [x || 0] on an optional number. *)
Definition or_zero (x : option Z) : Z := default 0 x.

(** [new PosBuffer(bytes, options)]. *)
Definition new (data : Buffer) (opts : BufferOptions) : t :=
  {| _buffer := data;
     offsetBytes := or_zero (bytes <$> offset0 opts);
     offsetBits := or_zero (bits <$> offset0 opts);
     options := opts |}.

Definition no_options : BufferOptions :=
  {| endianness := None; offset0 := None |}.

Definition length (pb : t) : Z := buffer_length (_buffer pb).

Definition offset (pb : t) : Offset :=
  {| bytes := offsetBytes pb; bits := offsetBits pb |}.

Definition set_offset (pb : t) (o : Offset) : t :=
  {| _buffer := _buffer pb;
     offsetBytes := bytes o;
     offsetBits := bits o;
     options := options pb |}.

Definition mode (pb : t) : Mode := default BE (endianness (options pb)).

Definition addOffset (pb : t) (bitSize : Z) : Offset :=
  let currentOffsetInBits := offsetBytes pb * 8 + offsetBits pb in
  let updatedOffsetInBits := currentOffsetInBits + bitSize in
  {| bytes := updatedOffsetInBits / 8; bits := Z.rem updatedOffsetInBits 8 |}.

Definition updateOffset (pb : t) (bitSize : Z) : t :=
  set_offset pb (addOffset pb bitSize).

(** The guard that opens [read]. *)
Definition read_out_of_bounds (pb : t) : bool :=
  offsetBytes pb >? length pb - 1.

Definition read (pb : t) (dataType : DataTypeCtor) (opts : option TypeOptions)
  : Outcome (Value * t) :=
  if read_out_of_bounds pb
  then Throws (Error "Attempt to read outside of the buffer")
  else
    let dataInstruction := dataType opts in
    '(value, sz) ← execute dataInstruction pb;
    let thennedValue :=
      match opts ≫= then_ with
      | Some f => f value
      | None => value
      end in
    Returns (thennedValue, updateOffset pb sz).

(** [readMany]: [map] calls [read] on each entry in turn. *)
Fixpoint readMany (pb : t)
  (dataTypes : list (DataTypeCtor * option TypeOptions))
  : Outcome (list Value * t) :=
  match dataTypes with
  | [] => Returns ([], pb)
  | (type, opts) :: rest =>
      '(value, pb') ← read pb type opts;
      '(values, pb'') ← readMany pb' rest;
      Returns (value :: values, pb'')
  end.

Definition skip (pb : t) (nbytes : Z) : Outcome t :=
  let pb' := updateOffset pb (nbytes * 8) in
  if (offsetBytes pb' >? length pb' - 1) || (offsetBytes pb' <? 0)
  then Throws (Error "Attempt to skip outside the buffer")
  else Returns pb'.

Definition peek (pb : t) (instruction : DataTypeCtor) (byteOffset : Z)
  (opts : option TypeOptions) : Outcome Value :=
  let dataInstruction := instruction opts in
  if (byteOffset <? 0)
     || (byteOffset + bytes (addOffset pb (size0 dataInstruction)) >? length pb)
  then Throws (Error "Attempt to peek outside of the buffer")
  else
    '(value, _) ← execute dataInstruction
                    (set_offset pb {| bytes := byteOffset; bits := 0 |});
    Returns value.

Definition pad (pb : t) : t :=
  if bool_decide (offsetBits pb ≠ 0)
  then {| _buffer := _buffer pb;
          offsetBytes := offsetBytes pb + 1;
          offsetBits := 0;
          options := options pb |}
  else pb.

Definition slice (pb : t) (start : Z) : t :=
  new (Buffer_slice (_buffer pb) start) no_options.

(** *** The methods again, with the state they leave the object in

    [skip] and [peek] assign to the fields of the object before they may
    throw; what a caller that catches the exception then finds is given
    here. The data types only read the object (as in [read] above). *)

(** [skip]: [updateOffset] comes first, the check after it. *)
Definition skip_run (pb : t) (nbytes : Z) : Outcome unit * t :=
  let pb' := updateOffset pb (nbytes * 8) in
  if (offsetBytes pb' >? length pb' - 1) || (offsetBytes pb' <? 0)
  then (Throws (Error "Attempt to skip outside the buffer"), pb')
  else (Returns tt, pb').

(** [peek]: the offset is set to the place peeked at, the data type is
    executed, the offset is set back; there is no [finally]. *)
Definition peek_run (pb : t) (instruction : DataTypeCtor) (byteOffset : Z)
  (opts : option TypeOptions) : Outcome Value * t :=
  let dataInstruction := instruction opts in
  if (byteOffset <? 0)
     || (byteOffset + bytes (addOffset pb (size0 dataInstruction)) >? length pb)
  then (Throws (Error "Attempt to peek outside of the buffer"), pb)
  else
    let originalOffset := offset pb in
    let relocated := set_offset pb {| bytes := byteOffset; bits := 0 |} in
    match execute dataInstruction relocated with
    | Returns (value, _) => (Returns value, set_offset relocated originalOffset)
    | Throws e => (Throws e, relocated)
    end.

(** The position in bits, and the positions of the data model. *)
Definition position (pb : t) : Z := offsetBytes pb * 8 + offsetBits pb.

Definition valid (pb : t) : Prop :=
  0 <= offsetBytes pb /\ 0 <= offsetBits pb < 8.

End PosBuffer.

(** ** payload_spec.ts *)

(** *** Instruction objects and their mutable fields

    A [PadInstruction] keeps a private field [_size] that [execute] writes
    and the getter [size] reads. The instruction objects live as long as the
    spec they belong to, so this field survives from one [exec] to the next.
    It is kept in a store indexed by the identity of the object. The size
    of an instance of a class of [types.ts], which the loop also reads once
    [execute] has run, is kept in the same way. *)

Abbreviation loc := positive.
Abbreviation Heap := (gmap positive Z).

(** [_size] starts at 0. *)
Definition cell (h : Heap) (l : loc) : Z := default 0 (h !! l).

(** Computations that read and write the store and may throw. What was
    written before a throw stays written. *)
Definition Run (A : Type) : Type := Heap -> Outcome A * Heap.

#[global] Instance Run_ret : MRet Run := fun A a h => (Returns a, h).

#[global] Instance Run_bind : MBind Run := fun A B f m h =>
  match m h with
  | (Returns a, h') => f a h'
  | (Throws e, h') => (Throws e, h')
  end.

Definition throw {A : Type} (e : Exception) : Run A := fun h => (Throws e, h).

Definition lift {A : Type} (o : Outcome A) : Run A := fun h => (o, h).

Definition set_cell (l : loc) (z : Z) : Run unit :=
  fun h => (Returns tt, <[l := z]> h).

(** [type Predicate = (r: any) => boolean] and
    [type ValueProvider = (r: any) => Primitive | null]. The object a
    callback receives is a fresh one, built for the call; the callback
    either returns a value of its declared type or throws. *)
Definition Predicate : Type := Obj -> Outcome bool.
Definition ValueProvider : Type := Obj -> Outcome Value.

(** Modelled from the spec: [types.ts] is not part of the sources, so a
    type decoder is taken by its contract (section 4.2): given the buffer,
    the position and the active endianness it yields the decoded value and
    the number of bits consumed, or fails. *)
Definition Decoder : Type := Buffer -> Offset -> Mode -> Outcome (Value * Z).

(** The options of a field that the interpreter acts on; [size],
    [encoding], [terminator] and [dp] belong to the decoder. *)
Record FieldOptions : Type := mkFieldOptions {
  then_ : option (Value -> Value);
  shouldBe : option Value
}.

Definition no_options : FieldOptions := {| then_ := None; shouldBe := None |}.

(** The classes that implement [Instruction], and [PayloadSpec], which an
    [IfInstruction] refers to.
    - [TypeInstruction] stands for an instance [new Type(name, options)] of a
      class of [types.ts]; [self] is the identity of the object.
    - [SwitchInstruction] is built by [switch], which the tests call but
      [payload_spec.ts] does not have.
    A spec is a finite tree here: a spec that is nested in itself, whose
    run would not end when its branch is taken, has no counterpart. *)
Inductive Instruction : Type :=
| TypeInstruction (self : loc) (name : string) (decoder : Decoder)
    (options : FieldOptions)
| Literal (name : string) (value : Value)
| Ignorable (inst : Instruction)
| SkipInstruction (bytes : Z)
| EndiannessInstruction (mode : Mode)
| PadInstruction (self : loc)
| DeriveInstruction (_name : string) (callback : ValueProvider)
| IfInstruction (predicate : Predicate) (otherSpec : PayloadSpec)
| SwitchInstruction (keyFn : ValueProvider)
    (table : list (string * PayloadSpec))
with PayloadSpec : Type :=
| mkPayloadSpec (mode : Mode) (instructions : list Instruction).

Definition PayloadSpec_mode (spec : PayloadSpec) : Mode :=
  match spec with mkPayloadSpec m _ => m end.

Definition PayloadSpec_instructions (spec : PayloadSpec) : list Instruction :=
  match spec with mkPayloadSpec _ l => l end.

(** [ReaderState]: [result] and [storedVars] are the two objects every
    instruction of one run shares; [execute] returns them as it left them. *)
Record ReaderState : Type := mkReaderState {
  result : JsObject;
  storedVars : JsObject;
  offset : Offset;
  mode : Mode
}.

Definition set_result (rs : ReaderState) (r : JsObject) : ReaderState :=
  {| result := r; storedVars := storedVars rs;
     offset := offset rs; mode := mode rs |}.

(** [get name()]. *)
Fixpoint Instruction_name (i : Instruction) : option string :=
  match i with
  | TypeInstruction _ name _ _ => Some name
  | Literal name _ => Some name
  | Ignorable inst => Instruction_name inst
  | DeriveInstruction _name _ => Some _name
  | SkipInstruction _ | EndiannessInstruction _ | PadInstruction _
  | IfInstruction _ _ | SwitchInstruction _ _ => None
  end.

(** [get size()], read in the store as it is at the time of the call. *)
Fixpoint Instruction_size (i : Instruction) (h : Heap) : Z :=
  match i with
  | TypeInstruction self _ _ _ => cell h self
  | Literal _ _ => 0
  | Ignorable inst => Instruction_size inst h
  | SkipInstruction bytes => bytes * 8
  | EndiannessInstruction _ => 0
  | PadInstruction self => cell h self
  | DeriveInstruction _ _ => 0
  | IfInstruction _ _ => 0
  | SwitchInstruction _ _ => 0
  end.

(** Reading [instruction.size] in the course of a run. *)
Definition get_size (i : Instruction) : Run Z :=
  fun h => (Returns (Instruction_size i h), h).

(** [if (name)]: [null] and the empty string are falsy. *)
Definition truthy_name (name : option string) : option string :=
  match name with
  | Some n => if decide (n = "") then None else Some n
  | None => None
  end.

(** [class BufferReader]: the private fields. The instruction list is
    passed to [read] below. *)
Record BufferReader : Type := mkBufferReader {
  byteOffset : Z;
  bitOffset : Z;
  _mode : Mode
}.

Definition BufferReader_addOffset (r : BufferReader) (bitSize : Z)
  : BufferReader :=
  let currentOffsetInBits := byteOffset r * 8 + bitOffset r in
  let updatedOffsetInBits := currentOffsetInBits + bitSize in
  {| byteOffset := updatedOffsetInBits / 8;
     bitOffset := Z.rem updatedOffsetInBits 8;
     _mode := _mode r |}.

(** What the loop of [BufferReader.read] carries from one instruction to the
    next: the reader's fields and the two objects. *)
Record LoopState : Type := mkLoopState {
  reader : BufferReader;
  loop_result : JsObject;
  loop_storedVars : JsObject
}.

Definition initial (m : Mode) : LoopState :=
  {| reader := {| byteOffset := 0; bitOffset := 0; _mode := m |};
     loop_result := ∅;
     loop_storedVars := ∅ |}.

Definition readerState_of (st : LoopState) : ReaderState :=
  {| result := loop_result st;
     storedVars := loop_storedVars st;
     mode := _mode (reader st);
     offset := {| bytes := byteOffset (reader st);
                  bits := bitOffset (reader st) |} |}.

(** The message of a failed [shouldBe]. *)
Definition shouldBe_message (name : string) (expected actual : Value)
  : string :=
  "Expected " +:+ name +:+ " to be " +:+ to_string expected
    +:+ " but was " +:+ to_string actual.

(** Modelled from the spec: the [execute] of an instance of a class of
    [types.ts] (section 4.3, Field): decode with the decoder; apply
    [then] when present; when [shouldBe] is present compare the value
    with it and fail on a mismatch; store the value under [name]. The bits
    consumed become the [size] of the instance. *)
Definition TypeInstruction_execute (self : loc) (name : string)
  (decoder : Decoder) (options : FieldOptions) (buffer : Buffer)
  (rs : ReaderState) : Run ReaderState :=
  '(decoded, consumed) ← lift (decoder buffer (offset rs) (mode rs));
  _ ← set_cell self consumed;
  let value :=
    match then_ options with
    | Some f => f decoded
    | None => decoded
    end in
  match shouldBe options with
  | Some expected =>
      if decide (value = expected)
      then mret (set_result rs (set_property (result rs) name value))
      else throw (ParsingError (shouldBe_message name expected value))
  | None => mret (set_result rs (set_property (result rs) name value))
  end.

(** Modelled from the spec: [Literal] of [types.ts] stores its constant
    under its name and has size 0. *)
Definition Literal_execute (name : string) (value : Value) (rs : ReaderState)
  : Run ReaderState :=
  mret (set_result rs (set_property (result rs) name value)).

(** The part of [Ignorable.execute] that follows the inner [execute]. *)
Definition Ignorable_move (name : option string) (rs : ReaderState)
  : ReaderState :=
  match truthy_name name with
  | Some n =>
      let value := get_property (result rs) n in
      {| result := delete_property (result rs) n;
         storedVars := set_property (storedVars rs) n value;
         offset := offset rs;
         mode := mode rs |}
  | None => rs
  end.

Definition PadInstruction_execute (self : loc) (rs : ReaderState)
  : Run ReaderState :=
  let bitsToPad := 8 - bits (offset rs) in
  _ ← set_cell self bitsToPad;
  mret rs.

Definition DeriveInstruction_execute (_name : string)
  (callback : ValueProvider) (rs : ReaderState) : Run ReaderState :=
  let combinedVars := spread (result rs) (storedVars rs) in
  value ← lift (callback combinedVars);
  mret (set_result rs (set_property (result rs) _name value)).

Section Interpreter.

(** [instruction.execute], as the loop calls it. *)
Variable execute : Instruction -> Buffer -> ReaderState -> Run ReaderState.

Variable buffer : Buffer.

(** One turn of the [for] loop of [BufferReader.read]. *)
Definition step_with (instruction : Instruction) (st : LoopState)
  : Run LoopState :=
  match instruction with
  | EndiannessInstruction m =>
      mret {| reader := {| byteOffset := byteOffset (reader st);
                           bitOffset := bitOffset (reader st);
                           _mode := m |};
              loop_result := loop_result st;
              loop_storedVars := loop_storedVars st |}
  | _ =>
      rs ← execute instruction buffer (readerState_of st);
      bitSize ← get_size instruction;
      mret {| reader := BufferReader_addOffset (reader st) bitSize;
              loop_result := result rs;
              loop_storedVars := storedVars rs |}
  end.

Fixpoint loop_with (instructions : list Instruction) (st : LoopState)
  : Run LoopState :=
  match instructions with
  | [] => mret st
  | instruction :: rest =>
      st' ← step_with instruction st;
      loop_with rest st'
  end.

(** [BufferReader.read], from a fresh reader. *)
Definition read_with (m : Mode) (instructions : list Instruction)
  : Run JsObject :=
  st ← loop_with instructions (initial m);
  mret (loop_result st).

End Interpreter.

(** [table[key]]: the first spec of the table under [key], handed to
    [run]. *)
Fixpoint lookup_with {A : Type} (run : Mode -> list Instruction -> A)
  (key : string) (table : list (string * PayloadSpec)) : option A :=
  match table with
  | [] => None
  | (k, mkPayloadSpec m instructions) :: rest =>
      if decide (k = key)
      then Some (run m instructions)
      else lookup_with run key rest
  end.

(** [Object.assign(readerState.result, subResult)] once the nested spec has
    returned. *)
Definition merge_subResult (rs : ReaderState) (sub : Run JsObject)
  : Run ReaderState :=
  subResult ← sub;
  mret (set_result rs (Object_assign (result rs) subResult)).

(** [instruction.execute(buffer, readerState)], by class. The nested spec of
    an [IfInstruction] runs through [PayloadSpec.exec], a new
    [BufferReader] over [buffer.slice(readerState.offset.bytes)].

    Modelled from the spec: the [SwitchInstruction] case (section 4.3,
    Multi-way-Switch): the key is the string of [keyFn] applied to the merge
    of the two objects; the spec found under the key, or else under
    ["default"], runs as the true branch of an [IfInstruction] does; with
    neither there is no effect. *)
Fixpoint Instruction_execute (i : Instruction) (buffer : Buffer)
  (rs : ReaderState) {struct i} : Run ReaderState :=
  match i with
  | TypeInstruction self name decoder options =>
      TypeInstruction_execute self name decoder options buffer rs
  | Literal name value => Literal_execute name value rs
  | Ignorable inst =>
      rs' ← Instruction_execute inst buffer rs;
      mret (Ignorable_move (Instruction_name inst) rs')
  | SkipInstruction _ => mret rs
  | EndiannessInstruction _ => mret rs
  | PadInstruction self => PadInstruction_execute self rs
  | DeriveInstruction _name callback =>
      DeriveInstruction_execute _name callback rs
  | IfInstruction predicate otherSpec =>
      shouldExec ← lift (predicate (spread (result rs) (storedVars rs)));
      if shouldExec : bool
      then
        match otherSpec with
        | mkPayloadSpec m instructions =>
            merge_subResult rs
              (read_with Instruction_execute
                 (Buffer_slice buffer (bytes (offset rs))) m instructions)
        end
      else mret rs
  | SwitchInstruction keyFn table =>
      keyValue ← lift (keyFn (spread (result rs) (storedVars rs)));
      let key := to_string keyValue in
      let lookup :=
        lookup_with
          (fun m instructions =>
             merge_subResult rs
               (read_with Instruction_execute
                  (Buffer_slice buffer (bytes (offset rs))) m instructions)) in
      match lookup key table with
      | Some run => run
      | None =>
          match lookup "default" table with
          | Some run => run
          | None => mret rs
          end
      end
  end.

(** The loop of [BufferReader.read] over the instructions' own [execute]. *)
Definition step (buffer : Buffer) (instruction : Instruction) (st : LoopState)
  : Run LoopState :=
  step_with Instruction_execute buffer instruction st.

Definition loop (buffer : Buffer) (instructions : list Instruction)
  (st : LoopState) : Run LoopState :=
  loop_with Instruction_execute buffer instructions st.

(** [new BufferReader(mode, instructions).read(buffer)]. *)
Definition BufferReader_read (m : Mode) (instructions : list Instruction)
  (buffer : Buffer) : Run JsObject :=
  read_with Instruction_execute buffer m instructions.

(** [PayloadSpec.exec]. *)
Definition PayloadSpec_exec (spec : PayloadSpec) (data : Buffer)
  : Run JsObject :=
  BufferReader_read (PayloadSpec_mode spec) (PayloadSpec_instructions spec)
    data.

(** *** The fluent interface of [PayloadSpec]

    Each call pushes one instruction. [new PadInstruction()] and
    [new Type(name, options)] create an object; its identity is the [self]
    given here. *)

Definition push (i : Instruction) (spec : PayloadSpec) : PayloadSpec :=
  mkPayloadSpec (PayloadSpec_mode spec) (PayloadSpec_instructions spec ++ [i]).

(** [new PayloadSpec(mode)], [Mode.BE] when no mode is given. *)
Definition PayloadSpec_new (m : option Mode) : PayloadSpec :=
  mkPayloadSpec (default BE m) [].

(** The second argument of [field] and [store]: a class of [types.ts] or a
    primitive value. *)
Inductive TypeOrPrimitive : Type :=
| OfType (self : loc) (decoder : Decoder)
| OfPrimitive (value : Value).

Definition wrapped (name : string) (type : TypeOrPrimitive)
  (options : FieldOptions) : Instruction :=
  match type with
  | OfType self decoder => TypeInstruction self name decoder options
  | OfPrimitive value => Literal name value
  end.

(** In each method the spec it is called on comes last, so that calls chain
    with [|>] as they do in the source. *)
Definition field (name : string) (type : TypeOrPrimitive)
  (options : FieldOptions) (this : PayloadSpec) : PayloadSpec :=
  push (wrapped name type options) this.

Definition store (name : string) (type : TypeOrPrimitive)
  (options : FieldOptions) (this : PayloadSpec) : PayloadSpec :=
  push (Ignorable (wrapped name type options)) this.

Definition derive (name : string) (callback : ValueProvider)
  (this : PayloadSpec) : PayloadSpec :=
  push (DeriveInstruction name callback) this.

(** [skip(sizable)]: a number of bytes, or a numeric type, given by its
    [bitSize()]. *)
Definition skip (sizable : Z + Z) (this : PayloadSpec) : PayloadSpec :=
  let skipBytes :=
    match sizable with
    | inl n => n
    | inr bitSize => bitSize / 8
    end in
  push (SkipInstruction skipBytes) this.

Definition if_ (predicate : Predicate) (otherSpec : PayloadSpec)
  (this : PayloadSpec) : PayloadSpec :=
  push (IfInstruction predicate otherSpec) this.

Definition pad (self : loc) (this : PayloadSpec) : PayloadSpec :=
  push (PadInstruction self) this.

Definition endianness (m : Mode) (this : PayloadSpec) : PayloadSpec :=
  push (EndiannessInstruction m) this.

(** Modelled from the spec: [switch] (section 6) is not in
    [payload_spec.ts]; it pushes a [SwitchInstruction]. *)
Definition switch (keyFn : ValueProvider) (table : list (string * PayloadSpec))
  (this : PayloadSpec) : PayloadSpec :=
  push (SwitchInstruction keyFn table) this.

Notation "this |> method" := (method this)
  (at level 45, left associativity, only parsing).

(** *** Decoders used in the worked examples

    Modelled from the spec: [types.ts] is not part of the sources. The
    decoders below follow section 4.2 and the messages the tests expect. *)

Definition alignment_message (bit : Z) : string :=
  "Buffer position is not at a byte boundary (bit offset " +:+ pretty bit
    +:+ "). Do you need to use pad()?".

Definition out_of_range : Exception :=
  RangeError "Attempt to access memory outside buffer bounds".

(** The unsigned value of a run of bytes, first byte most significant. *)
Definition be_value (l : Buffer) : Z :=
  fold_left (fun acc b => acc * 256 + byte_value b) l 0.

(** The [n] bytes at byte offset [at_]. *)
Definition window (buffer : Buffer) (at_ : Z) (n : nat) : option Buffer :=
  let w := take n (drop (Z.to_nat at_) buffer) in
  if bool_decide (0 <= at_ /\ length w = n) then Some w else None.

(** Unsigned integer of [n] bytes; must be byte-aligned on entry. *)
Definition UInt (n : nat) : Decoder := fun buffer o m =>
  if bool_decide (bits o ≠ 0)
  then Throws (ParsingError (alignment_message (bits o)))
  else
    match window buffer (bytes o) n with
    | Some w =>
        let ordered := match m with BE => w | LE => reverse w end in
        Returns (VNumber (be_value ordered), 8 * Z.of_nat n)
    | None => Throws out_of_range
    end.

(** Signed integer of [n] bytes, two's complement. *)
Definition Int (n : nat) : Decoder := fun buffer o m =>
  '(v, consumed) ← UInt n buffer o m;
  match v with
  | VNumber u =>
      let range := 2 ^ (8 * Z.of_nat n) in
      Returns (VNumber (if u <? range / 2 then u else u - range), consumed)
  | _ => Returns (v, consumed)
  end.

Definition UInt8 : Decoder := UInt 1.
Definition Int8 : Decoder := Int 1.
Definition UInt16 : Decoder := UInt 2.
Definition UInt32 : Decoder := UInt 4.

(** Bit field of width [w]: most significant bit first, across byte
    boundaries, from any bit offset. *)
Definition read_bits (buffer : Buffer) (o : Offset) (w : Z) : Outcome Z :=
  let n := Z.to_nat ((bits o + w + 7) / 8) in
  match window buffer (bytes o) n with
  | Some bs =>
      Returns (Z.land (Z.shiftr (be_value bs) (8 * Z.of_nat n - bits o - w))
                 (2 ^ w - 1))
  | None => Throws out_of_range
  end.

Definition Bits (w : Z) : Decoder := fun buffer o _ =>
  v ← read_bits buffer o w;
  Returns (VNumber v, w).

Definition Bit : Decoder := Bits 1.

Definition Bool : Decoder := fun buffer o _ =>
  v ← read_bits buffer o 1;
  Returns (VBoolean (v =? 1), 1).

(** Text of [n] bytes, one character per byte. *)
Definition Text (n : nat) : Decoder := fun buffer o _ =>
  if bool_decide (bits o ≠ 0)
  then Throws (ParsingError (alignment_message (bits o)))
  else
    match window buffer (bytes o) n with
    | Some w =>
        Returns (VString (String.string_of_list_byte w),
                 8 * Z.of_nat n)
    | None => Throws out_of_range
    end.

(** [r[name]] in a callback: the object it receives is a plain one. *)
Definition property_of (r : Obj) (name : string) : Value :=
  get_property {| own := r; ordinary := true |} name.

(** Reading a number out of the object a callback receives. *)
Definition number_of (r : Obj) (name : string) : Z :=
  match r !! name with
  | Some (VNumber n) => n
  | _ => 0
  end.

(** The outcome of a run that starts with every [_size] at its initial 0. *)
Definition outcome_of {A : Type} (run : Run A) : Outcome A := fst (run ∅).

(** The number behind a value read in a test, -1 for anything else. *)
Definition as_number (v : Value) : Z :=
  match v with
  | VNumber n => n
  | _ => -1
  end.

(** A data type of [PosBuffer.read] from a decoder of fixed width. *)
Definition DataType_of (decoder : Decoder) (bitSize : Z)
  : PosBuffer.DataTypeCtor := fun _ =>
  {| PosBuffer.size0 := bitSize;
     PosBuffer.execute := fun pb =>
       decoder (PosBuffer._buffer pb) (PosBuffer.offset pb)
         (PosBuffer.mode pb) |}.

(** ** Notions used to state the properties *)

(** The position of a reader in bits. *)
Definition position (r : BufferReader) : Z := byteOffset r * 8 + bitOffset r.

(** The data model's position: a non-negative byte offset and a bit offset
    in [0, 8). *)
Definition valid_position (r : BufferReader) : Prop :=
  0 <= byteOffset r /\ 0 <= bitOffset r < 8.

Definition set_mode (m : Mode) (st : LoopState) : LoopState :=
  {| reader := {| byteOffset := byteOffset (reader st);
                  bitOffset := bitOffset (reader st);
                  _mode := m |};
     loop_result := loop_result st;
     loop_storedVars := loop_storedVars st |}.

(** The endianness in force after the instructions [pre]: that of the last
    [EndiannessInstruction] among them, or else the one in force before. *)
Definition active_mode (m0 : Mode) (pre : list Instruction) : Mode :=
  fold_left
    (fun m i => match i with EndiannessInstruction m' => m' | _ => m end)
    pre m0.

(** The sizes the loop adds to its offset, one per instruction, in order:
    each is [instruction.size] as read once the instruction has executed.
    The list stops where the run throws. *)
Fixpoint consumed (buffer : Buffer) (instructions : list Instruction)
  (st : LoopState) (h : Heap) : list Z :=
  match instructions with
  | [] => []
  | i :: rest =>
      match step buffer i st h with
      | (Returns st', h') =>
          Instruction_size i h' :: consumed buffer rest st' h'
      | (Throws _, _) => []
      end
  end.

Definition sum_list (l : list Z) : Z := fold_right Z.add 0 l.

(** The positions reached from [p] by adding the sizes one after the other. *)
Fixpoint positions (p : Z) (sizes : list Z) : list Z :=
  match sizes with
  | [] => []
  | s :: rest => (p + s) :: positions (p + s) rest
  end.

(** The first spec of the table under [key]. *)
Fixpoint table_lookup (key : string) (table : list (string * PayloadSpec))
  : option PayloadSpec :=
  match table with
  | [] => None
  | (k, spec) :: rest =>
      if decide (k = key) then Some spec else table_lookup key rest
  end.

(** The branch a [SwitchInstruction] takes for a key. *)
Definition switch_branch (key : string) (table : list (string * PayloadSpec))
  : option PayloadSpec :=
  match table_lookup key table with
  | Some spec => Some spec
  | None => table_lookup "default" table
  end.


(** The same reader state at another bit offset. *)
Definition with_bits (rs : ReaderState) (b : Z) : ReaderState :=
  {| result := result rs;
     storedVars := storedVars rs;
     offset := {| bytes := bytes (offset rs); bits := b |};
     mode := mode rs |}.

(** Two executions leave the same store and either return with the same
    result object and stored variables or throw the same exception. *)
Definition same_effect (x y : Outcome ReaderState * Heap) : Prop :=
  snd x = snd y /\
  match fst x, fst y with
  | Returns a, Returns b => result a = result b /\ storedVars a = storedVars b
  | Throws e, Throws e' => e = e'
  | _, _ => False
  end.

(** The run of a nested spec as a branch starts it: a loop over the slice
    of the buffer at the byte offset [at_], from a reader at byte 0, bit 0,
    with empty objects. *)
Definition nested_run (buffer : Buffer) (at_ : Z) (spec : PayloadSpec)
  : Run JsObject :=
  st ← loop (Buffer_slice buffer at_) (PayloadSpec_instructions spec)
         {| reader := {| byteOffset := 0; bitOffset := 0;
                         _mode := PayloadSpec_mode spec |};
            loop_result := ∅;
            loop_storedVars := ∅ |};
  mret (loop_result st).

(** An instruction that runs a nested spec. *)
Definition is_branch (i : Instruction) : Prop :=
  match i with
  | IfInstruction _ _ | SwitchInstruction _ _ => True
  | _ => False
  end.

(** [options?.then ? options.then(value) : value] in [PosBuffer.read]. *)
Definition thenned (opts : option PosBuffer.TypeOptions) (value : Value)
  : Value :=
  match opts ≫= PosBuffer.then_ with
  | Some f => f value
  | None => value
  end.

(** What [execute] returns or throws does not depend on the [_size] fields
    it finds, and neither does the size read after it has returned. *)
Definition store_irrelevant (i : Instruction) : Prop :=
  forall buffer rs h1 h2,
    fst (Instruction_execute i buffer rs h1)
    = fst (Instruction_execute i buffer rs h2)
    /\ (forall rs',
          fst (Instruction_execute i buffer rs h1) = Returns rs' ->
          Instruction_size i (snd (Instruction_execute i buffer rs h1))
          = Instruction_size i (snd (Instruction_execute i buffer rs h2))).


(** The field or stored field [i] with the endianness [m] wired into its
    decoder, which then ignores the mode it is handed. Other instructions
    are left as they are. *)
Fixpoint decoded_in (m : Mode) (i : Instruction) : Instruction :=
  match i with
  | TypeInstruction self name decoder options =>
      TypeInstruction self name (fun b o _ => decoder b o m) options
  | Ignorable inst => Ignorable (decoded_in m inst)
  | _ => i
  end.

(** No [EndiannessInstruction] among the instructions. *)
Definition no_switch (l : list Instruction) : Prop :=
  Forall (fun i => forall m, i <> EndiannessInstruction m) l.

(** ** Induction over instructions and the specs nested in them *)

Section Instruction_nested_ind.

Variable P : Instruction -> Prop.

Hypothesis HType : forall self name decoder options,
  P (TypeInstruction self name decoder options).
Hypothesis HLiteral : forall name value, P (Literal name value).
Hypothesis HIgnorable : forall inst, P inst -> P (Ignorable inst).
Hypothesis HSkip : forall nbytes, P (SkipInstruction nbytes).
Hypothesis HEndianness : forall m, P (EndiannessInstruction m).
Hypothesis HPad : forall self, P (PadInstruction self).
Hypothesis HDerive : forall name callback, P (DeriveInstruction name callback).
Hypothesis HIf : forall predicate m instructions,
  Forall P instructions ->
  P (IfInstruction predicate (mkPayloadSpec m instructions)).
Hypothesis HSwitch : forall keyFn table,
  Forall (fun entry => Forall P (PayloadSpec_instructions (snd entry))) table ->
  P (SwitchInstruction keyFn table).

Fixpoint Instruction_nested_ind (i : Instruction) : P i :=
  let all :=
    fix all (l : list Instruction) : Forall P l :=
      match l with
      | [] => @List.Forall_nil _ P
      | x :: r => @List.Forall_cons _ P x r (Instruction_nested_ind x) (all r)
      end in
  match i with
  | TypeInstruction self name decoder options =>
      HType self name decoder options
  | Literal name value => HLiteral name value
  | Ignorable inst => HIgnorable inst (Instruction_nested_ind inst)
  | SkipInstruction nbytes => HSkip nbytes
  | EndiannessInstruction m => HEndianness m
  | PadInstruction self => HPad self
  | DeriveInstruction name callback => HDerive name callback
  | IfInstruction predicate (mkPayloadSpec m l) => HIf predicate m l (all l)
  | SwitchInstruction keyFn table =>
      HSwitch keyFn table
        ((fix entries (t : list (string * PayloadSpec))
            : Forall (fun entry =>
                        Forall P (PayloadSpec_instructions (snd entry))) t :=
            match t with
            | [] => @List.Forall_nil _ _
            | (k, mkPayloadSpec m l) :: r =>
                @List.Forall_cons _
                  (fun entry =>
                     Forall P (PayloadSpec_instructions (snd entry)))
                  (k, mkPayloadSpec m l) r (all l) (entries r)
            end) table)
  end.

End Instruction_nested_ind.

(** ** Tactics for runs *)

(** Unfold the monad of runs down to pairs of an outcome and a store. *)
Ltac run_unfold :=
  unfold merge_subResult in *;
  unfold mbind, Run_bind, mret, Run_ret, set_cell, get_size, lift, throw in *;
  cbn beta iota in *.

(** Case analysis on the run of a nested spec. *)
Ltac destruct_exec sub e h' :=
  match goal with
  | |- context [PayloadSpec_exec ?s ?b ?h] =>
      destruct (PayloadSpec_exec s b h) as [[sub|e] h']
  end.

(** [exposes n i]: the instruction [i] may leave the property [n] set in
    the result object: it writes [n] and does not move it to the stored
    variables afterwards. *)
Fixpoint exposes (n : string) (i : Instruction) : bool :=
  match i with
  | TypeInstruction _ name _ _ => bool_decide (name = n)
  | Literal name _ => bool_decide (name = n)
  | Ignorable inst =>
      exposes n inst
      && negb (bool_decide (truthy_name (Instruction_name inst) = Some n))
  | DeriveInstruction _name _ => bool_decide (_name = n)
  | IfInstruction _ (mkPayloadSpec _ instructions) =>
      existsb (exposes n) instructions
  | SwitchInstruction _ table =>
      existsb
        (fun entry =>
           match entry with
           | (_, mkPayloadSpec _ instructions) =>
               existsb (exposes n) instructions
           end)
        table
  | SkipInstruction _ | EndiannessInstruction _ | PadInstruction _ => false
  end.

(** An instruction that does not expose [n] keeps [n] out of the result
    object when it is not there. *)
Definition keeps_hidden (i : Instruction) : Prop :=
  forall n buffer rs h rs' h',
    exposes n i = false ->
    result rs !! n = None ->
    Instruction_execute i buffer rs h = (Returns rs', h') ->
    result rs' !! n = None.

(** [has_field i]: an instance of a class of [types.ts] is among [i] and
    the instructions of the specs nested in it. *)
Fixpoint has_field (i : Instruction) : bool :=
  match i with
  | TypeInstruction _ _ _ _ => true
  | Ignorable inst => has_field inst
  | IfInstruction _ (mkPayloadSpec _ instructions) =>
      existsb has_field instructions
  | SwitchInstruction _ table =>
      existsb
        (fun entry =>
           match entry with
           | (_, mkPayloadSpec _ instructions) =>
               existsb has_field instructions
           end)
        table
  | _ => false
  end.

(** Without a field, [execute] ends in the same way on every buffer: the
    same state returned or the same exception thrown, the same sizes left
    in the instruction objects. *)
Definition ignores_buffer (i : Instruction) : Prop :=
  has_field i = false ->
  forall buffer rs h,
    Instruction_execute i buffer rs h = Instruction_execute i [] rs h.

(** ** The specs of the tests of [parser.test.ts] *)

Local Open Scope positive_scope.

Definition a_field (self : loc) (name : string) (decoder : Decoder)
  : PayloadSpec -> PayloadSpec :=
  field name (OfType self decoder) no_options.

Definition a_store (self : loc) (name : string) (decoder : Decoder)
  : PayloadSpec -> PayloadSpec :=
  store name (OfType self decoder) no_options.

Definition should_be (self : loc) (name : string) (decoder : Decoder)
  (expected : Value) : PayloadSpec -> PayloadSpec :=
  field name (OfType self decoder)
    {| then_ := None; shouldBe := Some expected |}.

Definition mainSpec : PayloadSpec :=
  PayloadSpec_new None
    |> a_field 1 "type" UInt8
    |> if_ (fun r => Returns (bool_decide (r !! "type" = Some (VNumber 1))))
         (PayloadSpec_new None |> a_field 2 "a1" UInt8).

Definition specOne : PayloadSpec :=
  PayloadSpec_new None |> a_field 1 "one" UInt8.

Definition specTwo : PayloadSpec :=
  PayloadSpec_new None |> skip (inl 1%Z) |> a_field 2 "two" UInt8.

Local Close Scope positive_scope.

(** ** Tests of [PosBuffer], replayed on the embedding *)

Example test_bits_has_aliases_for_taking_2_to_16_bits :
  let buffer :=
    PosBuffer.new
      [Byte.xa5; Byte.x32; Byte.x7f; Byte.xc3; Byte.x77; Byte.xa1; Byte.x3b;
       Byte.x55; Byte.xff; Byte.xca; Byte.xd1; Byte.x2f; Byte.x40; Byte.xee;
       Byte.xbf; Byte.x4d; Byte.x04; Byte.xff]
      PosBuffer.no_options in
  exists values after,
    PosBuffer.readMany buffer
      (map (fun w => (DataType_of (Bits w) w, None))
         [2; 3; 4; 5; 6; 7; 8; 9; 10; 11; 12; 13; 14; 15; 16])
    = Returns (values, after)
    /\ map as_number values
       = [2; 4; 10; 12; 39; 126; 27; 378; 78; 1707; 4089; 2884; 12096;
          30559; 42626]
    /\ PosBuffer.offset after = {| bytes := 16; bits := 7 |}
    /\ fst <$> (match PosBuffer.read (PosBuffer.pad after)
                        (DataType_of UInt8 8) None with
                | Returns r => Some r
                | Throws _ => None
                end)
       = Some (VNumber 255).
Proof. do 2 eexists. split; [vm_compute; reflexivity|]. by vm_compute. Qed.

Example test_skipping :
  let buffer :=
    PosBuffer.new [Byte.xae; Byte.xc4; Byte.x00; Byte.xc5; Byte.x33]
      PosBuffer.no_options in
  PosBuffer.skip buffer 5
  = Throws (Error "Attempt to skip outside the buffer")
  /\ PosBuffer.skip (PosBuffer.new [Byte.xae] PosBuffer.no_options) (-1)
     = Throws (Error "Attempt to skip outside the buffer")
  /\ (pb ← PosBuffer.skip buffer 2;
      pb' ← PosBuffer.skip pb 2;
      '(v, _) ← PosBuffer.read pb' (DataType_of UInt8 8) None;
      Returns v)
     = Returns (VNumber 51).
Proof. repeat split; vm_compute; reflexivity. Qed.

Example test_peeking :
  let buffer :=
    PosBuffer.new [Byte.xae; Byte.xc4] PosBuffer.no_options in
  PosBuffer.peek buffer (DataType_of UInt16 16) 0 None
  = Returns (VNumber 44740)
  /\ PosBuffer.peek buffer (DataType_of UInt32 32) 0 None
     = Throws (Error "Attempt to peek outside of the buffer")
  /\ PosBuffer.peek buffer (DataType_of UInt8 8) 3 None
     = Throws (Error "Attempt to peek outside of the buffer")
  /\ PosBuffer.peek buffer (DataType_of UInt8 8) (-1) None
     = Throws (Error "Attempt to peek outside of the buffer").
Proof. repeat split; vm_compute; reflexivity. Qed.

Example test_sets_size_if_reading_to_end_of_buffer :
  PosBuffer.read
    (PosBuffer.new [Byte.x32]
       {| PosBuffer.endianness := None;
          PosBuffer.offset0 := Some {| bytes := 1; bits := 0 |} |})
    (DataType_of Int8 8) None
  = Throws (Error "Attempt to read outside of the buffer").
Proof. reflexivity. Qed.

(** ** The tests of [parser.test.ts], replayed on the embedding *)

Section Tests.

Local Open Scope positive_scope.

Example test_skips_a_number_of_bytes :
  outcome_of
    (PayloadSpec_exec
       (PayloadSpec_new None
          |> a_field 1 "count" UInt8
          |> skip (inl 1%Z)
          |> a_field 2 "temp" UInt8
          |> skip (inl 3%Z)
          |> a_field 3 "humidity" UInt8)
       [Byte.x16; Byte.x00; Byte.x7f; Byte.x00; Byte.x00; Byte.x00; Byte.x01])
  = Returns {[ "count" := VNumber 22; "temp" := VNumber 127;
               "humidity" := VNumber 1 ]}.
Proof. vm_compute. reflexivity. Qed.

Example test_skips_the_size_of_the_passed_data_type :
  outcome_of
    (PayloadSpec_exec
       (PayloadSpec_new None
          |> a_field 1 "count" UInt8
          |> skip (inr 8%Z)
          |> a_field 2 "temp" UInt8
          |> skip (inr 16%Z)
          |> skip (inr 8%Z)
          |> a_field 3 "humidity" UInt8)
       [Byte.x16; Byte.x00; Byte.x7f; Byte.x00; Byte.x00; Byte.x00; Byte.x01])
  = Returns {[ "count" := VNumber 22; "temp" := VNumber 127;
               "humidity" := VNumber 1 ]}.
Proof. vm_compute. reflexivity. Qed.

Example test_can_switch_endianness :
  outcome_of
    (PayloadSpec_exec
       (PayloadSpec_new (Some BE)
          |> a_field 1 "countBE" UInt16
          |> endianness LE
          |> a_field 2 "countLE" UInt16
          |> endianness BE)
       [Byte.xff; Byte.x30; Byte.x30; Byte.xff])
  = Returns {[ "countBE" := VNumber 65328; "countLE" := VNumber 65328 ]}.
Proof. vm_compute. reflexivity. Qed.

Example test_store_skips_the_required_number_of_bytes :
  outcome_of
    (PayloadSpec_exec
       (PayloadSpec_new None
          |> a_store 1 "ignoreMe" UInt8
          |> a_store 2 "andMe" UInt32
          |> a_field 3 "lastByte" UInt8)
       [Byte.xff; Byte.xff; Byte.xff; Byte.xff; Byte.xff; Byte.x01])
  = Returns {[ "lastByte" := VNumber 1 ]}.
Proof. vm_compute. reflexivity. Qed.

Example test_derive_can_use_stored_vars_as_well_as_fields :
  outcome_of
    (PayloadSpec_exec
       (PayloadSpec_new None
          |> a_field 1 "count" UInt8
          |> a_store 2 "factor" UInt8
          |> derive "total"
               (fun r =>
                  Returns
                    (VNumber (number_of r "count" * number_of r "factor"))))
       [Byte.x02; Byte.x04])
  = Returns {[ "count" := VNumber 2; "total" := VNumber 8 ]}.
Proof. vm_compute. reflexivity. Qed.

Example test_padding_aligns_to_the_byte_boundary :
  outcome_of
    (PayloadSpec_exec
       (PayloadSpec_new None
          |> a_field 1 "enabled" Bool
          |> pad 2
          |> a_field 3 "count" Int8)
       [Byte.x80; Byte.x02])
  = Returns {[ "enabled" := VBoolean true; "count" := VNumber 2 ]}.
Proof. vm_compute. reflexivity. Qed.

Example test_throws_from_a_non_padded_position :
  outcome_of
    (PayloadSpec_exec
       (PayloadSpec_new None
          |> a_field 1 "enabled" Bool
          |> a_field 2 "count" Int8)
       [Byte.x80; Byte.x02])
  = Throws (ParsingError
      "Buffer position is not at a byte boundary (bit offset 1). Do you need to use pad()?").
Proof. vm_compute. reflexivity. Qed.

Example test_evaluates_conditional_block :
  outcome_of (PayloadSpec_exec mainSpec [Byte.x01; Byte.x02])
  = Returns {[ "type" := VNumber 1; "a1" := VNumber 2 ]}
  /\ outcome_of (PayloadSpec_exec mainSpec [Byte.x00; Byte.x02])
     = Returns {[ "type" := VNumber 0 ]}.
Proof. split; vm_compute; reflexivity. Qed.

Example test_literal_values :
  outcome_of
    (PayloadSpec_exec
       (PayloadSpec_new None
          |> field "type" (OfPrimitive (VString "install")) no_options
          |> field "count" (OfPrimitive (VNumber 23)) no_options
          |> field "enabled" (OfPrimitive (VBoolean true)) no_options)
       [Byte.x00])
  = Returns {[ "type" := VString "install"; "count" := VNumber 23;
               "enabled" := VBoolean true ]}.
Proof. vm_compute. reflexivity. Qed.

Example test_should_be_continues_on_a_match :
  outcome_of
    (PayloadSpec_exec
       (PayloadSpec_new None
          |> should_be 1 "enabled" Bool (VBoolean true)
          |> should_be 2 "days" (Bits 3) (VNumber 5)
          |> pad 3
          |> should_be 4 "frequency" UInt8 (VNumber 3))
       [Byte.xd0; Byte.x03])
  = Returns {[ "enabled" := VBoolean true; "days" := VNumber 5;
               "frequency" := VNumber 3 ]}.
Proof. vm_compute. reflexivity. Qed.

Example test_switch_uses_the_default_option :
  outcome_of
    (PayloadSpec_exec
       (PayloadSpec_new None
          |> a_field 3 "type" UInt8
          |> switch (fun r => Returns (property_of r "type"))
               [("128", specOne); ("default", specTwo)])
       [Byte.x00; Byte.x01; Byte.x02])
  = Returns {[ "type" := VNumber 0; "two" := VNumber 2 ]}.
Proof. vm_compute. reflexivity. Qed.

Example test_switch_looks_up_a_spec_in_a_table :
  outcome_of
    (PayloadSpec_exec
       (PayloadSpec_new None
          |> a_field 3 "type" UInt8
          |> switch (fun r => Returns (property_of r "type"))
               [("128", specOne); ("0", specTwo)])
       [Byte.x80; Byte.x01; Byte.x02])
  = Returns {[ "type" := VNumber 128; "one" := VNumber 1 ]}.
Proof. vm_compute. reflexivity. Qed.

End Tests.

(** ** Objects *)

Lemma lookup_own (o : JsObject) name : o !! name = own o !! name.
Proof. reflexivity. Qed.

Lemma lookup_define (o : JsObject) name value k :
  <[name := value]> o !! k
  = if decide (name = k) then Some value else o !! k.
Proof.
  rewrite lookup_own.
  change (own (<[name := value]> o)) with (<[name := value]> (own o)).
  by rewrite lookup_insert.
Qed.

Lemma lookup_set_property_ne (o : JsObject) name value k :
  name <> k -> set_property o name value !! k = o !! k.
Proof.
  intros Hne. unfold set_property.
  destruct (o !! name) as [old|].
  - rewrite lookup_define. by rewrite decide_False.
  - destruct (bool_decide (name = "__proto__") && ordinary o).
    + by destruct value.
    + rewrite lookup_define. by rewrite decide_False.
Qed.

Lemma lookup_set_property_eq (o : JsObject) name value :
  name <> "__proto__" -> set_property o name value !! name = Some value.
Proof.
  intros Hne. unfold set_property.
  destruct (o !! name) as [old|].
  - rewrite lookup_define. by rewrite decide_True.
  - rewrite bool_decide_eq_false_2 by done. cbn [andb].
    rewrite lookup_define. by rewrite decide_True.
Qed.

(** On a plain object that has no own [__proto__], assigning a primitive
    under [__proto__] changes nothing. *)
Lemma set_property_proto_ignored (o : JsObject) value :
  ordinary o = true ->
  o !! "__proto__" = None ->
  value <> VNull ->
  set_property o "__proto__" value = o.
Proof.
  intros Ho Hown Hv. unfold set_property. rewrite Hown, Ho.
  cbn. by destruct value.
Qed.

Lemma lookup_delete_property (o : JsObject) name k :
  delete_property o name !! k
  = if decide (name = k) then None else o !! k.
Proof.
  rewrite lookup_own. cbn [delete_property own]. by rewrite lookup_delete.
Qed.

Lemma lookup_empty_object name : (∅ : JsObject) !! name = None.
Proof. rewrite lookup_own. apply lookup_empty. Qed.

Lemma spread_lookup (a b : JsObject) k :
  spread a b !! k
  = match b !! k with
    | Some v => Some v
    | None => a !! k
    end.
Proof.
  unfold spread. rewrite !lookup_own.
  destruct (own b !! k) as [v|] eqn:E.
  - by apply lookup_union_Some_l.
  - by rewrite lookup_union_r.
Qed.

Lemma Object_assign_lookup_all (target source : JsObject) :
  forall k,
    (source !! k = None -> Object_assign target source !! k = target !! k)
    /\ (k <> "__proto__" ->
        forall v, source !! k = Some v ->
                  Object_assign target source !! k = Some v).
Proof.
  unfold Object_assign.
  change (forall k,
    (own source !! k = None ->
     map_fold (fun name value acc => set_property acc name value) target
       (own source) !! k = target !! k)
    /\ (k <> "__proto__" ->
        forall v, own source !! k = Some v ->
          map_fold (fun name value acc => set_property acc name value) target
            (own source) !! k = Some v)).
  apply (map_fold_weak_ind
           (fun (r : JsObject) (m : Obj) =>
              forall k,
                (m !! k = None -> r !! k = target !! k)
                /\ (k <> "__proto__" ->
                    forall v, m !! k = Some v -> r !! k = Some v))).
  - intros k. split; [done|]. intros _ v Hv. by rewrite lookup_empty in Hv.
  - intros i x m r Hi IH k. destruct (IH k) as [IHn IHs]. split.
    + intros Hk. apply lookup_insert_None in Hk as [Hk Hne].
      rewrite lookup_set_property_ne by done. by apply IHn.
    + intros Hproto v Hv. apply lookup_insert_Some in Hv as [[-> ->]|[Hne Hv]].
      * by apply lookup_set_property_eq.
      * rewrite lookup_set_property_ne by done. by apply IHs.
Qed.

Lemma Object_assign_lookup_None (target source : JsObject) k :
  source !! k = None -> Object_assign target source !! k = target !! k.
Proof. apply Object_assign_lookup_all. Qed.

Lemma Object_assign_lookup_Some (target source : JsObject) k v :
  k <> "__proto__" ->
  source !! k = Some v ->
  Object_assign target source !! k = Some v.
Proof. intros Hk. by apply Object_assign_lookup_all. Qed.

Lemma Object_assign_lookup (target source : JsObject) k :
  k <> "__proto__" ->
  Object_assign target source !! k
  = match source !! k with
    | Some v => Some v
    | None => target !! k
    end.
Proof.
  intros Hk. destruct (source !! k) as [v|] eqn:E.
  - by apply Object_assign_lookup_Some.
  - by apply Object_assign_lookup_None.
Qed.




Lemma Object_assign_empty (target : JsObject) :
  Object_assign target ∅ = target.
Proof. unfold Object_assign. cbn. apply map_fold_empty. Qed.

(** ** The monad of runs *)

Lemma bind_returns {A B : Type} (m : Run A) (f : A -> Run B) h a h' :
  m h = (Returns a, h') -> (m ≫= f) h = f a h'.
Proof. intros E. unfold mbind, Run_bind. by rewrite E. Qed.

Lemma bind_throws {A B : Type} (m : Run A) (f : A -> Run B) h e h' :
  m h = (Throws e, h') -> (m ≫= f) h = (Throws e, h').
Proof. intros E. unfold mbind, Run_bind. by rewrite E. Qed.

(** ** Unfolding [execute] at the instructions that run a nested spec *)

Lemma execute_If predicate otherSpec buffer rs h :
  Instruction_execute (IfInstruction predicate otherSpec) buffer rs h =
  match predicate (spread (result rs) (storedVars rs)) with
  | Returns true =>
      merge_subResult rs
        (PayloadSpec_exec otherSpec (Buffer_slice buffer (bytes (offset rs))))
        h
  | Returns false => (Returns rs, h)
  | Throws e => (Throws e, h)
  end.
Proof.
  destruct otherSpec. cbn [Instruction_execute]. run_unfold.
  by destruct (predicate _) as [[|]|e].
Qed.

Lemma lookup_with_table_lookup {A : Type} (run : Mode -> list Instruction -> A)
  key table :
  lookup_with run key table =
  (fun spec => run (PayloadSpec_mode spec) (PayloadSpec_instructions spec))
    <$> table_lookup key table.
Proof.
  induction table as [|[k [m l]] t IH]; [reflexivity|].
  cbn. destruct (decide (k = key)); [reflexivity|]. apply IH.
Qed.

Lemma execute_Switch keyFn table buffer rs h :
  Instruction_execute (SwitchInstruction keyFn table) buffer rs h =
  match keyFn (spread (result rs) (storedVars rs)) with
  | Returns keyValue =>
      match switch_branch (to_string keyValue) table with
      | Some spec =>
          merge_subResult rs
            (PayloadSpec_exec spec (Buffer_slice buffer (bytes (offset rs))))
            h
      | None => (Returns rs, h)
      end
  | Throws e => (Throws e, h)
  end.
Proof.
  cbn [Instruction_execute]. unfold switch_branch.
  unfold mbind at 1, Run_bind at 1, lift at 1.
  destruct (keyFn _) as [keyValue|e]; [|reflexivity].
  rewrite !lookup_with_table_lookup.
  destruct (table_lookup _ table); [reflexivity|].
  destruct (table_lookup "default" table); reflexivity.
Qed.

(** ** The offset of the reader *)

Lemma addOffset_position r bitSize :
  0 <= position r + bitSize ->
  position (BufferReader_addOffset r bitSize) = position r + bitSize
  /\ valid_position (BufferReader_addOffset r bitSize).
Proof.
  unfold position, valid_position, BufferReader_addOffset. cbn.
  set (u := byteOffset r * 8 + bitOffset r + bitSize). intros Hu.
  rewrite Z.rem_mod_nonneg by lia.
  pose proof (Z.div_mod u 8 ltac:(lia)) as Hdm.
  pose proof (Z.mod_pos_bound u 8 ltac:(lia)) as Hb.
  pose proof (Z.div_pos u 8 Hu ltac:(lia)) as Hq.
  lia.
Qed.


(** ** The loop, one instruction at a time *)

Lemma step_Endianness execute buffer m st h :
  step_with execute buffer (EndiannessInstruction m) st h
  = (Returns (set_mode m st), h).
Proof. reflexivity. Qed.

Lemma step_unfold buffer i st h :
  (forall m, i <> EndiannessInstruction m) ->
  step buffer i st h =
  match Instruction_execute i buffer (readerState_of st) h with
  | (Returns rs, h') =>
      (Returns {| reader := BufferReader_addOffset (reader st)
                              (Instruction_size i h');
                  loop_result := result rs;
                  loop_storedVars := storedVars rs |}, h')
  | (Throws e, h') => (Throws e, h')
  end.
Proof.
  intros Hi. unfold step, step_with.
  destruct i; try (exfalso; eapply Hi; reflexivity);
    unfold mbind, Run_bind, get_size, mret, Run_ret;
    match goal with
    | |- context [Instruction_execute ?i buffer ?rs h] =>
        destruct (Instruction_execute i buffer rs h) as [[rs'|e] h']
    end; reflexivity.
Qed.

Lemma loop_with_app execute buffer pre post st h :
  loop_with execute buffer (pre ++ post) st h =
  match loop_with execute buffer pre st h with
  | (Returns st', h') => loop_with execute buffer post st' h'
  | (Throws e, h') => (Throws e, h')
  end.
Proof.
  revert st h. induction pre as [|i pre IH]; intros st h; [reflexivity|].
  cbn [app loop_with]. unfold mbind, Run_bind.
  destruct (step_with execute buffer i st h) as [[st1|e] h1]; [|reflexivity].
  apply IH.
Qed.

Lemma active_mode_app m0 pre post :
  active_mode m0 (pre ++ post) = active_mode (active_mode m0 pre) post.
Proof. unfold active_mode. apply fold_left_app. Qed.

Lemma step_with_mode execute buffer i st h st' h' :
  step_with execute buffer i st h = (Returns st', h') ->
  _mode (reader st') = active_mode (_mode (reader st)) [i].
Proof.
  unfold step_with, active_mode. cbn [fold_left].
  destruct i;
    try (unfold mbind, Run_bind, get_size, mret, Run_ret;
         match goal with
         | |- context [execute ?i buffer ?rs h] =>
             destruct (execute i buffer rs h) as [[rs'|e] h1]
         end; intros [= <- <-]; reflexivity).
  intros [= <- <-]. reflexivity.
Qed.

Lemma loop_with_mode execute buffer pre st h st' h' :
  loop_with execute buffer pre st h = (Returns st', h') ->
  _mode (reader st') = active_mode (_mode (reader st)) pre.
Proof.
  revert st h. induction pre as [|i pre IH]; intros st h.
  - intros [= <- <-]. reflexivity.
  - cbn [loop_with]. unfold mbind, Run_bind.
    destruct (step_with execute buffer i st h) as [[st1|e] h1] eqn:E;
      [|discriminate].
    intros H. apply IH in H. rewrite H.
    apply step_with_mode in E. rewrite E.
    change (i :: pre) with ([i] ++ pre). by rewrite active_mode_app.
Qed.

Lemma classic_EndiannessInstruction i :
  (exists m, i = EndiannessInstruction m)
  \/ (forall m, i <> EndiannessInstruction m).
Proof. destruct i; try (right; discriminate). left. eauto. Qed.

(** An instruction is executed in the endianness the reader holds when its
    turn comes: wiring that mode into the decoder changes nothing. *)
Lemma decoded_in_name m i :
  Instruction_name (decoded_in m i) = Instruction_name i.
Proof. induction i; cbn; auto. Qed.

Lemma decoded_in_size m i h :
  Instruction_size (decoded_in m i) h = Instruction_size i h.
Proof. induction i; cbn; auto. Qed.

Lemma decoded_in_execute i buffer rs h :
  Instruction_execute (decoded_in (mode rs) i) buffer rs h
  = Instruction_execute i buffer rs h.
Proof.
  revert rs h. induction i; intros rs h; try reflexivity.
  cbn [decoded_in Instruction_execute]. run_unfold.
  by rewrite IHi, decoded_in_name.
Qed.

Lemma decoded_in_not_a_switch m i :
  (forall m', i <> EndiannessInstruction m') ->
  forall m', decoded_in m i <> EndiannessInstruction m'.
Proof. intros Hi m'. destruct i; try discriminate. cbn. apply Hi. Qed.

Lemma step_decoded_in buffer i st h :
  step buffer (decoded_in (_mode (reader st)) i) st h = step buffer i st h.
Proof.
  destruct (classic_EndiannessInstruction i) as [[m ->]|Hi]; [reflexivity|].
  rewrite !step_unfold by auto using decoded_in_not_a_switch.
  change (_mode (reader st)) with (mode (readerState_of st)).
  rewrite decoded_in_execute.
  destruct (Instruction_execute i buffer (readerState_of st) h)
    as [[rs|e] h1]; [|reflexivity].
  by rewrite decoded_in_size.
Qed.

Lemma active_mode_no_switch m0 l : no_switch l -> active_mode m0 l = m0.
Proof.
  unfold no_switch, active_mode. intros H. revert m0.
  induction H as [|i l Hi _ IH]; intros m0; [reflexivity|].
  cbn [fold_left]. rewrite IH.
  destruct i; try reflexivity. exfalso. by eapply Hi.
Qed.

Lemma set_mode_mode m st : _mode (reader (set_mode m st)) = m.
Proof. reflexivity. Qed.

(** C6. Endianness switches are monotonic within one program. Let the
    instructions [pre] before an [EndiannessInstruction m] run and leave the
    loop in [st']. Then: (1) the rest of the program runs from [st'] with
    only the mode changed to [m]: nothing is added to the offset, and the
    result object, the stored variables and the instruction objects are as
    they were; (2) the loop takes the switch itself, whatever the [execute]
    of the instructions is; (3) its size is 0; (4) every instruction after
    the switch, up to the next switch, is handed the mode [m], and a field
    or stored field there is decoded with [m]; (5) every instruction before
    the switch is handed the mode in force before it, which does not depend
    on [m], and a field or stored field there is decoded with that mode. *)
Theorem endianness_switch_is_monotonic buffer pre m post st h st' h' :
  loop buffer pre st h = (Returns st', h') ->
  loop buffer (pre ++ EndiannessInstruction m :: post) st h
    = loop buffer post (set_mode m st') h'
  /\ (forall execute,
        step_with execute buffer (EndiannessInstruction m) st' h'
        = (Returns (set_mode m st'), h'))
  /\ Instruction_size (EndiannessInstruction m) h' = 0
  /\ (forall mid i rest st2 h2,
        post = mid ++ i :: rest ->
        no_switch mid ->
        loop buffer mid (set_mode m st') h' = (Returns st2, h2) ->
        mode (readerState_of st2) = m
        /\ step buffer i st2 h2 = step buffer (decoded_in m i) st2 h2)
  /\ (forall pre1 i pre2 st1 h1,
        pre = pre1 ++ i :: pre2 ->
        loop buffer pre1 st h = (Returns st1, h1) ->
        mode (readerState_of st1) = active_mode (_mode (reader st)) pre1
        /\ step buffer i st1 h1
           = step buffer
               (decoded_in (active_mode (_mode (reader st)) pre1) i) st1 h1).
Proof.
  intros Hpre. split; [|split; [|split; [|split]]].
  - unfold loop. rewrite loop_with_app. fold (loop buffer pre st h).
    rewrite Hpre. reflexivity.
  - reflexivity.
  - reflexivity.
  - intros mid i rest st2 h2 _ Hmid Hrun. apply loop_with_mode in Hrun.
    rewrite set_mode_mode, active_mode_no_switch in Hrun by done.
    split; [exact Hrun|]. by rewrite <- Hrun, step_decoded_in.
  - intros pre1 i pre2 st1 h1 _ Hrun. apply loop_with_mode in Hrun.
    split; [exact Hrun|]. by rewrite <- Hrun, step_decoded_in.
Qed.

Lemma endianness_switch_is_monotonic_witness :
  loop [Byte.xff; Byte.x30; Byte.x30; Byte.xff]
    ([TypeInstruction 1 "countBE" UInt16 no_options]
       ++ EndiannessInstruction LE
       :: [TypeInstruction 2 "countLE" UInt16 no_options])
    (initial BE) ∅
  = loop [Byte.xff; Byte.x30; Byte.x30; Byte.xff]
      [TypeInstruction 2 "countLE" UInt16 no_options]
      (set_mode LE
         {| reader := {| byteOffset := 2; bitOffset := 0; _mode := BE |};
            loop_result := {[ "countBE" := VNumber 65328 ]};
            loop_storedVars := ∅ |})
      {[ 1%positive := 16 ]}.
Proof.
  apply (endianness_switch_is_monotonic
           [Byte.xff; Byte.x30; Byte.x30; Byte.xff]
           [TypeInstruction 1 "countBE" UInt16 no_options] LE
           [TypeInstruction 2 "countLE" UInt16 no_options]
           (initial BE) ∅).
  vm_compute. reflexivity.
Defined.

(** ** The final position *)

Lemma step_position buffer i st h st' h' :
  step buffer i st h = (Returns st', h') ->
  0 <= position (reader st) + Instruction_size i h' ->
  position (reader st')
  = position (reader st) + Instruction_size i h'
  /\ (valid_position (reader st) -> valid_position (reader st')).
Proof.
  destruct (classic_EndiannessInstruction i) as [[m ->]|Hi].
  - unfold step. rewrite step_Endianness. intros [= <- <-] _.
    unfold position, valid_position. cbn. split; [lia|done].
  - rewrite step_unfold by done.
    destruct (Instruction_execute i buffer (readerState_of st) h)
      as [[rs|e] h1]; [|discriminate].
    intros [= <- <-] Hpos. cbn [reader].
    destruct (addOffset_position (reader st) (Instruction_size i h1) Hpos).
    split; [done|]. intros _. done.
Qed.

Lemma loop_position buffer instructions st h st' h' :
  loop buffer instructions st h = (Returns st', h') ->
  Forall (fun p => 0 <= p)
    (positions (position (reader st)) (consumed buffer instructions st h)) ->
  position (reader st')
  = position (reader st) + sum_list (consumed buffer instructions st h)
  /\ (valid_position (reader st) -> valid_position (reader st')).
Proof.
  revert st h. induction instructions as [|i rest IH]; intros st h.
  - intros [= <- <-] _. cbn. split; [lia|done].
  - unfold loop. cbn [loop_with consumed]. unfold mbind, Run_bind.
    fold (step buffer i st h).
    destruct (step buffer i st h) as [[st1|e] h1] eqn:E; [|discriminate].
    fold (loop buffer rest st1 h1). intros Hrest.
    cbn [positions sum_list fold_right]. intros Hall.
    apply Forall_cons in Hall as [Hhead Htail].
    destruct (step_position _ _ _ _ _ _ E Hhead) as [Hp Hv].
    rewrite <- Hp in Htail.
    destruct (IH _ _ Hrest Htail) as [Hp' Hv'].
    fold (sum_list (consumed buffer rest st1 h1)).
    split; [lia|auto].
Qed.

(** C4, as amended. When a run succeeds and the running position never
    becomes negative, the final position in bits, [byteOffset * 8 +
    bitOffset], is the sum of the sizes of the executed instructions, and
    it is a position of the data model (the byte offset is not negative and
    the bit offset is in [0, 8)). Nothing bounds it by the length of the
    buffer. *)
Theorem final_position_is_sum_of_sizes buffer m instructions h st' h' :
  loop buffer instructions (initial m) h = (Returns st', h') ->
  Forall (fun p => 0 <= p)
    (positions 0 (consumed buffer instructions (initial m) h)) ->
  position (reader st')
  = sum_list (consumed buffer instructions (initial m) h)
  /\ valid_position (reader st').
Proof.
  intros Hrun Hall.
  destruct (loop_position buffer instructions (initial m) h st' h' Hrun Hall)
    as [Hp Hv].
  split; [exact Hp|]. apply Hv. unfold valid_position. cbn. lia.
Qed.

Lemma final_position_is_sum_of_sizes_witness :
  position {| byteOffset := 2; bitOffset := 3; _mode := BE |}
  = sum_list
      (consumed [Byte.x16; Byte.x00; Byte.x7f]
         [TypeInstruction 1 "count" UInt8 no_options; SkipInstruction 1;
          TypeInstruction 2 "flags" (Bits 3) no_options]
         (initial BE) ∅)
  /\ valid_position {| byteOffset := 2; bitOffset := 3; _mode := BE |}.
Proof.
  apply (final_position_is_sum_of_sizes
           [Byte.x16; Byte.x00; Byte.x7f] BE
           [TypeInstruction 1 "count" UInt8 no_options; SkipInstruction 1;
            TypeInstruction 2 "flags" (Bits 3) no_options]
           ∅
           {| reader := {| byteOffset := 2; bitOffset := 3; _mode := BE |};
              loop_result :=
                {[ "count" := VNumber 22; "flags" := VNumber 3 ]};
              loop_storedVars := ∅ |}
           {[ 1%positive := 8; 2%positive := 3 ]}).
  - vm_compute. reflexivity.
  - vm_compute. repeat constructor; discriminate.
Defined.

(** C4, the claim as stated fails: [new PayloadSpec().skip(5)] runs to the
    end on the empty buffer and leaves the reader at bit 40, past the
    buffer's 0 bits. *)
Lemma final_position_can_exceed_the_buffer :
  ~ (forall buffer m instructions h st' h',
       loop buffer instructions (initial m) h = (Returns st', h') ->
       position (reader st')
       = sum_list (consumed buffer instructions (initial m) h)
       /\ position (reader st') <= buffer_length buffer * 8).
Proof.
  intros H.
  destruct (H [] BE [SkipInstruction 5] ∅
              {| reader := {| byteOffset := 5; bitOffset := 0; _mode := BE |};
                 loop_result := ∅; loop_storedVars := ∅ |}
              ∅ eq_refl) as [_ Hbound].
  vm_compute in Hbound. apply Hbound. reflexivity.
Qed.

(** The slip the amended C4 leaves aside: the remainder of a negative
    position is negative, so after [field(Bool)] and [skip(-1)] the reader
    is not at bit 1 - 8 = -7. *)
Example position_after_rewinding_before_the_start :
  exists st' h',
    loop [Byte.x80]
      [TypeInstruction 1 "enabled" Bool no_options; SkipInstruction (-1)]
      (initial BE) ∅ = (Returns st', h')
    /\ byteOffset (reader st') = -1 /\ bitOffset (reader st') = -7
    /\ position (reader st') = -15.
Proof. do 2 eexists. split; [vm_compute; reflexivity|]. by vm_compute. Qed.

(** ** Padding *)

Lemma PosBuffer_pad_spec pb :
  (PosBuffer.offsetBits pb = 0 -> PosBuffer.pad pb = pb)
  /\ (PosBuffer.offsetBits pb <> 0 ->
      PosBuffer.offsetBytes (PosBuffer.pad pb) = PosBuffer.offsetBytes pb + 1
      /\ PosBuffer.offsetBits (PosBuffer.pad pb) = 0).
Proof.
  unfold PosBuffer.pad. split; intros H.
  - rewrite bool_decide_eq_false_2; [done|]. intros Hne. by apply Hne.
  - rewrite bool_decide_eq_true_2 by done. done.
Qed.

Lemma step_Pad buffer self st h :
  step buffer (PadInstruction self) st h
  = (Returns {| reader := BufferReader_addOffset (reader st)
                            (8 - bitOffset (reader st));
                loop_result := loop_result st;
                loop_storedVars := loop_storedVars st |},
     <[self := 8 - bitOffset (reader st)]> h).
Proof.
  unfold step, step_with. cbn [Instruction_execute].
  unfold PadInstruction_execute. run_unfold. cbn [Instruction_size].
  unfold cell. rewrite lookup_insert_eq. reflexivity.
Qed.

(** A [PadInstruction] moves the reader to the byte boundary after its
    position: to the next byte when the bit offset is not 0, and also when
    it is 0. *)
Lemma PadInstruction_moves_to_the_next_byte buffer self st h :
  valid_position (reader st) ->
  step buffer (PadInstruction self) st h
  = (Returns {| reader := {| byteOffset := byteOffset (reader st) + 1;
                             bitOffset := 0;
                             _mode := _mode (reader st) |};
                loop_result := loop_result st;
                loop_storedVars := loop_storedVars st |},
     <[self := 8 - bitOffset (reader st)]> h).
Proof.
  intros [Hby Hbi]. rewrite step_Pad. do 3 f_equal.
  unfold BufferReader_addOffset.
  replace (byteOffset (reader st) * 8 + bitOffset (reader st)
           + (8 - bitOffset (reader st)))
    with (0 + (byteOffset (reader st) + 1) * 8) by lia.
  rewrite Z.rem_mod_nonneg by lia.
  rewrite Z.div_add, Z.mod_add by lia. reflexivity.
Qed.

(** C1, the code at the failing input. [new PayloadSpec().pad()
    .field('count', UInt8)] over the bytes 01 02: the pad at bit offset 0
    has size 8 and moves the reader one byte on, so that [count] is read
    from the second byte; [PosBuffer.pad] at the same position leaves it
    where it is. *)
Theorem PadInstruction_at_bit_offset_zero :
  step [Byte.x01; Byte.x02] (PadInstruction 1) (initial BE) ∅
  = (Returns {| reader := {| byteOffset := 1; bitOffset := 0; _mode := BE |};
                loop_result := ∅; loop_storedVars := ∅ |},
     {[ 1%positive := 8 ]})
  /\ outcome_of
       (PayloadSpec_exec
          (PayloadSpec_new None |> pad 1 |> a_field 2 "count" UInt8)
          [Byte.x01; Byte.x02])
     = Returns {[ "count" := VNumber 2 ]}
  /\ PosBuffer.pad (PosBuffer.new [Byte.x01; Byte.x02] PosBuffer.no_options)
     = PosBuffer.new [Byte.x01; Byte.x02] PosBuffer.no_options.
Proof. repeat split; vm_compute; reflexivity. Qed.

(** ** The bounds check of [PosBuffer.read] *)

(** C2, as amended. The check that opens [read] fails, with the message
    [Attempt to read outside of the buffer], exactly when the current byte
    offset is at or past the length of the buffer. When the offset is
    inside the buffer the data type is executed at the current position,
    whatever its width. *)
Theorem read_checks_the_current_byte_only pb dataType opts :
  (PosBuffer.length pb <= PosBuffer.offsetBytes pb ->
   PosBuffer.read pb dataType opts
   = Throws (Error "Attempt to read outside of the buffer"))
  /\ (PosBuffer.offsetBytes pb < PosBuffer.length pb ->
      PosBuffer.read pb dataType opts
      = ('(value, sz) ← PosBuffer.execute (dataType opts) pb;
         Returns (thenned opts value, PosBuffer.updateOffset pb sz))).
Proof.
  unfold PosBuffer.read, PosBuffer.read_out_of_bounds. split; intros H.
  - destruct (Z.gtb_spec (PosBuffer.offsetBytes pb) (PosBuffer.length pb - 1));
      [reflexivity|lia].
  - destruct (Z.gtb_spec (PosBuffer.offsetBytes pb) (PosBuffer.length pb - 1));
      [lia|reflexivity].
Qed.

Lemma read_checks_the_current_byte_only_witness :
  PosBuffer.read
    (PosBuffer.new [Byte.xae; Byte.xc4]
       {| PosBuffer.endianness := None;
          PosBuffer.offset0 := Some {| bytes := 2; bits := 0 |} |})
    (DataType_of UInt8 8) None
  = Throws (Error "Attempt to read outside of the buffer")
  /\ PosBuffer.read (PosBuffer.new [Byte.xae; Byte.xc4] PosBuffer.no_options)
       (DataType_of UInt16 16) None
     = Returns
         (VNumber 44740,
          PosBuffer.set_offset
            (PosBuffer.new [Byte.xae; Byte.xc4] PosBuffer.no_options)
            {| bytes := 2; bits := 0 |}).
Proof.
  split.
  - apply (read_checks_the_current_byte_only
             (PosBuffer.new [Byte.xae; Byte.xc4]
                {| PosBuffer.endianness := None;
                   PosBuffer.offset0 := Some {| bytes := 2; bits := 0 |} |})
             (DataType_of UInt8 8) None).
    vm_compute. discriminate.
  - etransitivity.
    + apply (read_checks_the_current_byte_only
               (PosBuffer.new [Byte.xae; Byte.xc4] PosBuffer.no_options)
               (DataType_of UInt16 16) None).
      vm_compute. reflexivity.
    + vm_compute. reflexivity.
Defined.

(** C2, the claim as stated fails: with one byte in the buffer and the
    cursor on it, a read of a 16-bit type passes the check of [read]; what
    stops it is the decoder, reading out of range. *)
Lemma read_does_not_check_the_width :
  ~ (forall pb dataType opts,
       PosBuffer.offsetBytes pb + PosBuffer.size0 (dataType opts) / 8
         > PosBuffer.length pb ->
       PosBuffer.read pb dataType opts
       = Throws (Error "Attempt to read outside of the buffer")).
Proof.
  intros H.
  specialize (H (PosBuffer.new [Byte.xae] PosBuffer.no_options)
                (DataType_of UInt16 16) None).
  vm_compute in H. specialize (H eq_refl). discriminate H.
Qed.

Example read_guard_at_the_last_byte :
  PosBuffer.read_out_of_bounds
    (PosBuffer.new [Byte.xae] PosBuffer.no_options) = false.
Proof. reflexivity. Qed.

(** ** Nested specs *)

Lemma exec_nested_run spec buffer at_ :
  PayloadSpec_exec spec (Buffer_slice buffer at_) = nested_run buffer at_ spec.
Proof. reflexivity. Qed.

(** A nested spec that is one field, without options: the field is decoded
    on the buffer the spec is run on, from byte 0, bit 0, in the mode of
    the spec, and its value is the only property of what the spec
    returns. *)
Lemma exec_one_field m self name decoder data h :
  PayloadSpec_exec
    (mkPayloadSpec m [TypeInstruction self name decoder no_options]) data h
  = match decoder data {| bytes := 0; bits := 0 |} m with
    | Returns (decoded, consumed) =>
        (Returns (set_property ∅ name decoded), <[self := consumed]> h)
    | Throws e => (Throws e, h)
    end.
Proof.
  unfold PayloadSpec_exec, BufferReader_read, read_with.
  cbn [PayloadSpec_mode PayloadSpec_instructions loop_with].
  unfold step_with. cbn [Instruction_execute].
  unfold TypeInstruction_execute. cbn [no_options then_ shouldBe].
  cbn [initial readerState_of reader offset mode byteOffset bitOffset _mode
       result loop_result].
  run_unfold.
  by destruct (decoder data {| bytes := 0; bits := 0 |} m)
    as [[decoded consumed]|e].
Qed.

(** C3. A branch that is taken, of an [IfInstruction] or of a
    [SwitchInstruction], runs its nested spec over the slice of the buffer
    at the outer byte offset, from a reader at byte 0 and bit 0: the outer
    bit offset does not reach the nested program, and changing it changes
    neither the outcome of the branch nor what it leaves behind. A field
    of the nested spec is so decoded from bit 0 of the byte the outer
    cursor is in: its decoder is handed the slice, the position byte 0,
    bit 0 and the mode of the nested spec, and what it decodes is assigned
    into the outer result object. The slice is the buffer from the outer
    byte offset on (for a negative offset, from that many bytes before the
    end). *)
Theorem nested_program_starts_at_bit_zero buffer rs h :
  (forall predicate otherSpec,
     predicate (spread (result rs) (storedVars rs)) = Returns true ->
     Instruction_execute (IfInstruction predicate otherSpec) buffer rs h
     = merge_subResult rs (nested_run buffer (bytes (offset rs)) otherSpec) h)
  /\ (forall keyFn table keyValue spec,
        keyFn (spread (result rs) (storedVars rs)) = Returns keyValue ->
        switch_branch (to_string keyValue) table = Some spec ->
        Instruction_execute (SwitchInstruction keyFn table) buffer rs h
        = merge_subResult rs (nested_run buffer (bytes (offset rs)) spec) h)
  /\ (forall i b,
        is_branch i ->
        same_effect (Instruction_execute i buffer (with_bits rs b) h)
          (Instruction_execute i buffer rs h))
  /\ (forall predicate m self name decoder,
        predicate (spread (result rs) (storedVars rs)) = Returns true ->
        Instruction_execute
          (IfInstruction predicate
             (mkPayloadSpec m [TypeInstruction self name decoder no_options]))
          buffer rs h
        = match decoder (Buffer_slice buffer (bytes (offset rs)))
                  {| bytes := 0; bits := 0 |} m with
          | Returns (decoded, consumed) =>
              (Returns
                 (set_result rs
                    (Object_assign (result rs)
                       (set_property ∅ name decoded))),
               <[self := consumed]> h)
          | Throws e => (Throws e, h)
          end)
  /\ (forall keyFn table keyValue m self name decoder,
        keyFn (spread (result rs) (storedVars rs)) = Returns keyValue ->
        switch_branch (to_string keyValue) table
        = Some (mkPayloadSpec m
                  [TypeInstruction self name decoder no_options]) ->
        Instruction_execute (SwitchInstruction keyFn table) buffer rs h
        = match decoder (Buffer_slice buffer (bytes (offset rs)))
                  {| bytes := 0; bits := 0 |} m with
          | Returns (decoded, consumed) =>
              (Returns
                 (set_result rs
                    (Object_assign (result rs)
                       (set_property ∅ name decoded))),
               <[self := consumed]> h)
          | Throws e => (Throws e, h)
          end)
  /\ (0 <= bytes (offset rs) ->
      Buffer_slice buffer (bytes (offset rs))
      = drop (Z.to_nat (bytes (offset rs))) buffer)
  /\ (bytes (offset rs) < 0 ->
      Buffer_slice buffer (bytes (offset rs))
      = drop (Z.to_nat (Z.max 0 (buffer_length buffer + bytes (offset rs))))
          buffer).
Proof.
  assert (Hone : forall m self name decoder,
    merge_subResult rs
      (PayloadSpec_exec
         (mkPayloadSpec m [TypeInstruction self name decoder no_options])
         (Buffer_slice buffer (bytes (offset rs)))) h
    = match decoder (Buffer_slice buffer (bytes (offset rs)))
              {| bytes := 0; bits := 0 |} m with
      | Returns (decoded, consumed) =>
          (Returns
             (set_result rs
                (Object_assign (result rs) (set_property ∅ name decoded))),
           <[self := consumed]> h)
      | Throws e => (Throws e, h)
      end).
  { intros m self name decoder. unfold merge_subResult.
    unfold mbind at 1, Run_bind at 1. rewrite exec_one_field.
    by destruct (decoder _ _ m) as [[decoded consumed]|e]. }
  split; [|split; [|split; [|split; [|split; [|split]]]]].
  - intros predicate otherSpec Hp. by rewrite execute_If, Hp.
  - intros keyFn table keyValue spec Hk Hb.
    by rewrite execute_Switch, Hk, Hb.
  - intros i b Hi. destruct i; try done.
    + rewrite !execute_If. cbn [with_bits result storedVars offset bytes].
      destruct (predicate _) as [[|]|e]; [|by split|by split].
      run_unfold. unfold same_effect.
      destruct_exec sub e h'; by cbn.
    + rewrite !execute_Switch. cbn [with_bits result storedVars offset bytes].
      destruct (keyFn _) as [keyValue|e]; [|by split].
      destruct (switch_branch _ table) as [spec|]; [|by split].
      run_unfold. unfold same_effect.
      destruct_exec sub e h'; by cbn.
  - intros predicate m self name decoder Hp.
    rewrite execute_If, Hp. apply Hone.
  - intros keyFn table keyValue m self name decoder Hk Hb.
    rewrite execute_Switch, Hk, Hb. apply Hone.
  - intros Hpos. unfold Buffer_slice.
    destruct (Z.ltb_spec (bytes (offset rs)) 0); [lia|reflexivity].
  - intros Hneg. unfold Buffer_slice.
    destruct (Z.ltb_spec (bytes (offset rs)) 0); [reflexivity|lia].
Qed.

Lemma nested_program_starts_at_bit_zero_witness :
  Instruction_execute
    (IfInstruction (fun _ => Returns true)
       (mkPayloadSpec BE [TypeInstruction 2 "a1" (Bits 8) no_options]))
    [Byte.x07; Byte.xa1; Byte.xd2]
    {| result := {[ "type" := VNumber 5 ]}; storedVars := ∅;
       offset := {| bytes := 1; bits := 3 |}; mode := BE |}
    ∅
  = (Returns
       {| result := {[ "a1" := VNumber 161; "type" := VNumber 5 ]};
          storedVars := ∅;
          offset := {| bytes := 1; bits := 3 |}; mode := BE |},
     {[ 2%positive := 8 ]}).
Proof.
  etransitivity.
  - refine (proj1 (proj2 (proj2 (proj2
      (nested_program_starts_at_bit_zero [Byte.x07; Byte.xa1; Byte.xd2]
         {| result := {[ "type" := VNumber 5 ]}; storedVars := ∅;
            offset := {| bytes := 1; bits := 3 |}; mode := BE |}
         ∅))))
      (fun _ => Returns true) BE 2%positive "a1" (Bits 8) _).
    reflexivity.
  - vm_compute. reflexivity.
Defined.

(** The spec of the test [maintains a bit offset], run on the bytes A1 D2:
    after the three bits of [type], the nested [a1] is read from bit 0 of
    the first byte again and is 0xA1 = 161. (The test expects 14, the eight
    bits that follow the first three.) *)
Example nested_field_after_three_bits :
  outcome_of
    (PayloadSpec_exec
       (PayloadSpec_new None
          |> a_field 1 "type" (Bits 3)
          |> if_ (fun _ => Returns true)
               (PayloadSpec_new None |> a_field 2 "a1" (Bits 8)))
       [Byte.xa1; Byte.xd2])
  = Returns {[ "type" := VNumber 5; "a1" := VNumber 161 ]}.
Proof. vm_compute. reflexivity. Qed.




Example negative_cursor_is_reachable :
  loop [Byte.x80]
    [TypeInstruction 1 "enabled" Bool no_options; SkipInstruction (-1)]
    (initial BE) ∅
  = (Returns {| reader := {| byteOffset := -1; bitOffset := -7;
                             _mode := BE |};
                loop_result := {[ "enabled" := VBoolean true ]};
                loop_storedVars := ∅ |},
     {[ 1%positive := 1 ]})
  /\ fst (step [Byte.x80]
            (IfInstruction (fun _ => Returns false) (PayloadSpec_new None))
            {| reader := {| byteOffset := -1; bitOffset := -7;
                            _mode := BE |};
               loop_result := {[ "enabled" := VBoolean true ]};
               loop_storedVars := ∅ |}
            {[ 1%positive := 1 ]})
     = Returns {| reader := {| byteOffset := -2; bitOffset := -7;
                               _mode := BE |};
                  loop_result := {[ "enabled" := VBoolean true ]};
                  loop_storedVars := ∅ |}.
Proof. split; vm_compute; reflexivity. Qed.

(** A nested spec can return an object with a property [__proto__] of its
    own (here after it has set the prototype of its result object to
    [null]); [Object.assign] of that object into the outer result object
    does not give the outer object the property. *)
Example nested_proto_property_is_not_assigned :
  let nested :=
    PayloadSpec_new None
      |> derive "__proto__" (fun _ => Returns VNull)
      |> field "__proto__" (OfPrimitive (VNumber 5)) no_options in
  outcome_of (PayloadSpec_exec nested [])
  = Returns {| own := {[ "__proto__" := VNumber 5 ]}; ordinary := false |}
  /\ outcome_of
       (PayloadSpec_exec
          (PayloadSpec_new None |> if_ (fun _ => Returns true) nested) [])
     = Returns ∅.
Proof. split; vm_compute; reflexivity. Qed.

(** ** The object handed to callbacks *)

(** C10. The callback of a [DeriveInstruction] and the predicate of an
    [IfInstruction] are applied to the spread of the result object followed
    by the stored variables: for a name that the stored variables hold, the
    value they see is the stored one, also when the result object holds the
    name too. *)
Theorem stored_shadows_result rs k v :
  storedVars rs !! k = Some v ->
  spread (result rs) (storedVars rs) !! k = Some v
  /\ (forall name callback buffer h,
        Instruction_execute (DeriveInstruction name callback) buffer rs h
        = match callback (spread (result rs) (storedVars rs)) with
          | Returns value =>
              (Returns
                 (set_result rs (set_property (result rs) name value)), h)
          | Throws e => (Throws e, h)
          end)
  /\ (forall predicate otherSpec buffer h,
        Instruction_execute (IfInstruction predicate otherSpec) buffer rs h
        = match predicate (spread (result rs) (storedVars rs)) with
          | Returns true =>
              merge_subResult rs
                (PayloadSpec_exec otherSpec
                   (Buffer_slice buffer (bytes (offset rs)))) h
          | Returns false => (Returns rs, h)
          | Throws e => (Throws e, h)
          end).
Proof.
  intros Hk. split; [by rewrite spread_lookup, Hk|]. split.
  - intros name callback buffer h. cbn [Instruction_execute].
    unfold DeriveInstruction_execute. run_unfold.
    by destruct (callback _).
  - intros predicate otherSpec buffer h. apply execute_If.
Qed.

Lemma stored_shadows_result_witness :
  spread {[ "x" := VNumber 2 ]} {[ "x" := VNumber 1 ]} !! "x"
  = Some (VNumber 1).
Proof.
  refine (proj1 (stored_shadows_result
                   {| result := {[ "x" := VNumber 2 ]};
                      storedVars := {[ "x" := VNumber 1 ]};
                      offset := {| bytes := 0; bits := 0 |}; mode := BE |}
                   "x" (VNumber 1) _)).
  reflexivity.
Defined.

(** [store('x', 1).field('x', 2).derive('y', r => r.x)
    .if(r => r.x === 1, field('z', true))]: both objects hold [x]; the
    callback and the predicate see the stored 1. *)
Example callbacks_see_the_stored_value :
  outcome_of
    (PayloadSpec_exec
       (PayloadSpec_new None
          |> store "x" (OfPrimitive (VNumber 1)) no_options
          |> field "x" (OfPrimitive (VNumber 2)) no_options
          |> derive "y" (fun r => Returns (property_of r "x"))
          |> if_ (fun r => Returns (bool_decide (r !! "x" = Some (VNumber 1))))
               (PayloadSpec_new None
                  |> field "z" (OfPrimitive (VBoolean true)) no_options))
       [])
  = Returns {[ "x" := VNumber 2; "y" := VNumber 1; "z" := VBoolean true ]}.
Proof. vm_compute. reflexivity. Qed.

(** ** [shouldBe] *)

Lemma step_field_mismatch buffer self name decoder options expected st h
    decoded consumed :
  shouldBe options = Some expected ->
  decoder buffer (offset (readerState_of st)) (_mode (reader st))
  = Returns (decoded, consumed) ->
  match then_ options with Some f => f decoded | None => decoded end
  <> expected ->
  step buffer (TypeInstruction self name decoder options) st h
  = (Throws
       (ParsingError
          (shouldBe_message name expected
             match then_ options with
             | Some f => f decoded
             | None => decoded
             end)),
     <[self := consumed]> h).
Proof.
  intros Hsb Hdec Hne. unfold step, step_with.
  cbn [Instruction_execute]. unfold TypeInstruction_execute.
  cbn [readerState_of mode] in *. run_unfold. rewrite Hdec, Hsb.
  cbn beta iota. by rewrite decide_False.
Qed.

(** C9. A field with [shouldBe] whose decoded value, after [then], is not
    the expected one stops the run: the run throws a [ParsingError] whose
    message is [Expected <name> to be <expected> but was <actual>], for
    every expected value, 0, [false] and the empty string included. *)
Theorem shouldBe_mismatch_message buffer pre self name decoder options rest
    expected st0 h0 st h decoded consumed :
  loop buffer pre st0 h0 = (Returns st, h) ->
  shouldBe options = Some expected ->
  decoder buffer (offset (readerState_of st)) (_mode (reader st))
  = Returns (decoded, consumed) ->
  match then_ options with Some f => f decoded | None => decoded end
  <> expected ->
  fst (loop buffer
         (pre ++ TypeInstruction self name decoder options :: rest) st0 h0)
  = Throws
      (ParsingError
         ("Expected " +:+ name +:+ " to be " +:+ to_string expected
            +:+ " but was "
            +:+ to_string
                  match then_ options with
                  | Some f => f decoded
                  | None => decoded
                  end)).
Proof.
  intros Hpre Hsb Hdec Hne. unfold loop. rewrite loop_with_app.
  fold (loop buffer pre st0 h0). rewrite Hpre.
  cbn [loop_with]. unfold mbind at 1, Run_bind at 1.
  fold (step buffer (TypeInstruction self name decoder options) st h).
  by erewrite step_field_mismatch.
Qed.

Lemma shouldBe_mismatch_message_witness :
  fst (loop [Byte.x01]
         ([] ++ TypeInstruction 1 "frequency" UInt8
                  {| then_ := None; shouldBe := Some (VNumber 0) |} :: [])
         (initial BE) ∅)
  = Throws (ParsingError "Expected frequency to be 0 but was 1").
Proof.
  apply (shouldBe_mismatch_message [Byte.x01] [] 1%positive "frequency" UInt8
           {| then_ := None; shouldBe := Some (VNumber 0) |} []
           (VNumber 0) (initial BE) ∅ (initial BE) ∅ (VNumber 1) 8).
  - reflexivity.
  - reflexivity.
  - vm_compute. reflexivity.
  - cbn. discriminate.
Defined.

Section ShouldBeTests.

Local Open Scope positive_scope.

Example test_should_be_throws_on_a_mismatch :
  outcome_of
    (PayloadSpec_exec
       (PayloadSpec_new None |> should_be 1 "frequency" UInt8 (VNumber 3))
       [Byte.x04])
  = Throws (ParsingError "Expected frequency to be 3 but was 4").
Proof. vm_compute. reflexivity. Qed.

Example test_should_be_works_for_text :
  outcome_of
    (PayloadSpec_exec
       (PayloadSpec_new None
          |> should_be 1 "name" (Text 3) (VString "bob"))
       [Byte.x6e; Byte.x65; Byte.x64])
  = Throws (ParsingError "Expected name to be bob but was ned").
Proof. vm_compute. reflexivity. Qed.

Example test_should_be_works_for_bits :
  outcome_of
    (PayloadSpec_exec
       (PayloadSpec_new None |> should_be 1 "bits" (Bits 3) (VNumber 4))
       [Byte.x00])
  = Throws (ParsingError "Expected bits to be 4 but was 0").
Proof. vm_compute. reflexivity. Qed.

Example should_be_false_and_empty_string :
  outcome_of
    (PayloadSpec_exec
       (PayloadSpec_new None |> should_be 1 "enabled" Bool (VBoolean false))
       [Byte.x80])
  = Throws (ParsingError "Expected enabled to be false but was true")
  /\ outcome_of
       (PayloadSpec_exec
          (PayloadSpec_new None |> should_be 1 "name" (Text 3) (VString ""))
          [Byte.x6e; Byte.x65; Byte.x64])
     = Throws (ParsingError "Expected name to be  but was ned").
Proof. split; vm_compute; reflexivity. Qed.

End ShouldBeTests.

(** ** Running a spec again *)

Lemma table_lookup_In key table spec :
  table_lookup key table = Some spec -> In (key, spec) table.
Proof.
  induction table as [|[k s] t IH]; [discriminate|]. cbn.
  destruct (decide (k = key)) as [->|_].
  - intros [= ->]. by left.
  - intros H. right. by apply IH.
Qed.

Lemma switch_branch_In key table spec :
  switch_branch key table = Some spec -> exists k, In (k, spec) table.
Proof.
  unfold switch_branch. destruct (table_lookup key table) eqn:E.
  - intros [= ->]. eexists. by eapply table_lookup_In.
  - intros H. eexists. by eapply table_lookup_In.
Qed.

Lemma step_store_irrelevant buffer i st h1 h2 :
  store_irrelevant i ->
  fst (step buffer i st h1) = fst (step buffer i st h2).
Proof.
  intros Hi. destruct (classic_EndiannessInstruction i) as [[m ->]|Hne].
  - reflexivity.
  - rewrite !step_unfold by done.
    destruct (Hi buffer (readerState_of st) h1 h2) as [Hfst Hsize].
    destruct (Instruction_execute i buffer (readerState_of st) h1)
      as [[rs1|e1] h1'];
      destruct (Instruction_execute i buffer (readerState_of st) h2)
        as [[rs2|e2] h2']; cbn in *; try congruence.
    injection Hfst as <-. by rewrite (Hsize rs1 eq_refl).
Qed.

Lemma loop_store_irrelevant buffer instructions st h1 h2 :
  Forall store_irrelevant instructions ->
  fst (loop buffer instructions st h1) = fst (loop buffer instructions st h2).
Proof.
  intros Hall. revert st h1 h2.
  induction Hall as [|i rest Hi _ IH]; intros st h1 h2; [reflexivity|].
  unfold loop. cbn [loop_with]. unfold mbind, Run_bind.
  fold (step buffer i st h1). fold (step buffer i st h2).
  pose proof (step_store_irrelevant buffer i st h1 h2 Hi) as Hstep.
  destruct (step buffer i st h1) as [[st1|e1] h1'];
    destruct (step buffer i st h2) as [[st2|e2] h2'];
    cbn in Hstep; try discriminate; [|cbn; congruence].
  injection Hstep as <-. apply IH.
Qed.

Lemma exec_store_irrelevant spec buffer h1 h2 :
  Forall store_irrelevant (PayloadSpec_instructions spec) ->
  fst (PayloadSpec_exec spec buffer h1) = fst (PayloadSpec_exec spec buffer h2).
Proof.
  intros Hall. unfold PayloadSpec_exec, BufferReader_read, read_with.
  pose proof (loop_store_irrelevant buffer (PayloadSpec_instructions spec)
                (initial (PayloadSpec_mode spec)) h1 h2 Hall) as Hloop.
  unfold loop in Hloop. run_unfold.
  destruct (loop_with _ _ _ _ h1) as [[st1|e1] h1'];
    destruct (loop_with _ _ _ _ h2) as [[st2|e2] h2'];
    cbn in *; congruence.
Qed.

Lemma merge_subResult_store_irrelevant rs (sub : Run JsObject) h1 h2 :
  fst (sub h1) = fst (sub h2) ->
  fst (merge_subResult rs sub h1) = fst (merge_subResult rs sub h2).
Proof.
  intros H. run_unfold.
  destruct (sub h1) as [[r1|e1] h1']; destruct (sub h2) as [[r2|e2] h2'];
    cbn in *; congruence.
Qed.

Lemma every_instruction_store_irrelevant i : store_irrelevant i.
Proof.
  induction i using Instruction_nested_ind; intros buffer rs h1 h2.
  - cbn [Instruction_execute Instruction_size].
    unfold TypeInstruction_execute. run_unfold.
    destruct (decoder buffer (offset rs) (mode rs)) as [[decoded consumed]|e];
      [|split; [reflexivity|discriminate]].
    cbn beta iota.
    destruct (shouldBe options) as [expected|].
    + destruct (decide _); cbn; [|split; [reflexivity|discriminate]].
      split; [reflexivity|]. intros _ _. unfold cell.
      by rewrite !lookup_insert_eq.
    + cbn. split; [reflexivity|]. intros _ _. unfold cell.
      by rewrite !lookup_insert_eq.
  - split; reflexivity.
  - destruct (IHi buffer rs h1 h2) as [Hfst Hsize].
    cbn [Instruction_execute Instruction_size]. run_unfold.
    destruct (Instruction_execute i buffer rs h1) as [[rs1|e1] h1'];
      destruct (Instruction_execute i buffer rs h2) as [[rs2|e2] h2'];
      cbn in *; try congruence.
    + injection Hfst as <-. split; [reflexivity|]. intros _ _. eauto.
    + split; [done|discriminate].
  - split; reflexivity.
  - split; reflexivity.
  - cbn [Instruction_execute Instruction_size].
    unfold PadInstruction_execute. run_unfold. cbn.
    split; [reflexivity|]. intros _ _. unfold cell.
    by rewrite !lookup_insert_eq.
  - cbn [Instruction_execute Instruction_size].
    unfold DeriveInstruction_execute. run_unfold.
    destruct (callback _); split; reflexivity.
  - split; [|reflexivity]. rewrite !execute_If.
    destruct (predicate _) as [[|]|e]; [|reflexivity|reflexivity].
    apply merge_subResult_store_irrelevant. by apply exec_store_irrelevant.
  - split; [|reflexivity]. rewrite !execute_Switch.
    destruct (keyFn _) as [keyValue|e]; [|reflexivity].
    destruct (switch_branch _ table) as [spec|] eqn:E; [|reflexivity].
    apply merge_subResult_store_irrelevant. apply exec_store_irrelevant.
    apply switch_branch_In in E as [k Hin].
    rewrite Forall_forall in H. apply (H (k, spec)).
    by apply list_elem_of_In.
Qed.

(** C8. What [exec] returns (or throws) does not depend on the [_size]
    fields the instruction objects carry when it starts; so a second
    [exec] of the same spec on the same buffer, which finds these fields as
    the first one left them, returns the same result object. *)
Theorem exec_twice_gives_equal_results spec buffer :
  (forall h1 h2,
     fst (PayloadSpec_exec spec buffer h1)
     = fst (PayloadSpec_exec spec buffer h2))
  /\ (forall h,
        fst (PayloadSpec_exec spec buffer (snd (PayloadSpec_exec spec buffer h)))
        = fst (PayloadSpec_exec spec buffer h)).
Proof.
  assert (Hany : forall h1 h2,
    fst (PayloadSpec_exec spec buffer h1)
    = fst (PayloadSpec_exec spec buffer h2)).
  { intros h1 h2. apply exec_store_irrelevant.
    apply Forall_forall. intros i _. apply every_instruction_store_irrelevant. }
  split; [exact Hany|]. intros h. apply Hany.
Qed.

(** Two runs of [field(enabled, Bool).pad().field(count, Int8)]: the
    second finds the sizes the first has written and returns the same. *)
Example exec_twice_with_a_pad :
  let spec :=
    PayloadSpec_new None
      |> a_field 1 "enabled" Bool |> pad 2 |> a_field 3 "count" Int8 in
  let first := PayloadSpec_exec spec [Byte.x80; Byte.x02] ∅ in
  snd first = {[ 1%positive := 1; 2%positive := 7; 3%positive := 8 ]}
  /\ fst (PayloadSpec_exec spec [Byte.x80; Byte.x02] (snd first))
     = Returns {[ "enabled" := VBoolean true; "count" := VNumber 2 ]}.
Proof. split; vm_compute; reflexivity. Qed.

(** ** Derived fields *)


Lemma existsb_false_In {A : Type} (f : A -> bool) l x :
  existsb f l = false -> In x l -> f x = false.
Proof.
  intros Hf Hin. destruct (f x) eqn:E; [|reflexivity].
  rewrite <- Hf. symmetry. apply existsb_exists. eauto.
Qed.










Example derive_under_proto :
  outcome_of
    (PayloadSpec_exec
       (PayloadSpec_new None
          |> derive "__proto__" (fun _ => Returns (VNumber 5))
          |> derive "seen" (fun r => Returns (property_of r "__proto__")))
       [])
  = Returns {[ "seen" := VInherited "__proto__" ]}.
Proof. vm_compute. reflexivity. Qed.

(** * More of [pos_buffer.ts] *)

(** ** [addOffset] and [updateOffset] *)

Lemma PosBuffer_addOffset_bytes pb bitSize :
  bytes (PosBuffer.addOffset pb bitSize)
  = PosBuffer.offsetBytes pb + (PosBuffer.offsetBits pb + bitSize) / 8.
Proof.
  unfold PosBuffer.addOffset. cbn [bytes].
  replace (PosBuffer.offsetBytes pb * 8 + PosBuffer.offsetBits pb + bitSize)
    with (PosBuffer.offsetBytes pb * 8 + (PosBuffer.offsetBits pb + bitSize))
    by lia.
  rewrite Z.div_add_l by lia. reflexivity.
Qed.

Lemma PosBuffer_updateOffset_position pb bitSize :
  0 <= PosBuffer.position pb + bitSize ->
  PosBuffer.position (PosBuffer.updateOffset pb bitSize)
  = PosBuffer.position pb + bitSize
  /\ PosBuffer.valid (PosBuffer.updateOffset pb bitSize).
Proof.
  unfold PosBuffer.position, PosBuffer.valid, PosBuffer.updateOffset,
    PosBuffer.set_offset, PosBuffer.addOffset. cbn.
  set (u := PosBuffer.offsetBytes pb * 8 + PosBuffer.offsetBits pb + bitSize).
  intros Hu. rewrite Z.rem_mod_nonneg by lia.
  pose proof (Z.div_mod u 8 ltac:(lia)) as Hdm.
  pose proof (Z.mod_pos_bound u 8 ltac:(lia)) as Hb.
  pose proof (Z.div_pos u 8 Hu ltac:(lia)) as Hq.
  lia.
Qed.

Lemma PosBuffer_updateOffset_twice pb a b :
  0 <= PosBuffer.position pb + a ->
  PosBuffer.updateOffset (PosBuffer.updateOffset pb a) b
  = PosBuffer.updateOffset pb (a + b).
Proof.
  intros Ha.
  destruct (PosBuffer_updateOffset_position pb a Ha) as [Hp Hv].
  assert (Hadd : forall p x,
    PosBuffer.addOffset p x
    = {| bytes := (PosBuffer.position p + x) / 8;
         bits := Z.rem (PosBuffer.position p + x) 8 |}) by reflexivity.
  unfold PosBuffer.updateOffset at 1. rewrite Hadd, Hp.
  unfold PosBuffer.updateOffset. rewrite Hadd, <- Z.add_assoc. reflexivity.
Qed.

(** X1. Moving the cursor by [a] bits and then by [b] bits is moving it by
    [a + b] bits, provided the first move does not end before bit 0; the
    first move then lands exactly [a] bits further, on a byte offset that
    is not negative and a bit offset in [0, 8), and the bytes and the
    options of the buffer are not touched. *)
Theorem updateOffset_composes pb a b :
  0 <= PosBuffer.position pb + a ->
  PosBuffer.updateOffset (PosBuffer.updateOffset pb a) b
  = PosBuffer.updateOffset pb (a + b)
  /\ PosBuffer.position (PosBuffer.updateOffset pb a)
     = PosBuffer.position pb + a
  /\ PosBuffer.valid (PosBuffer.updateOffset pb a)
  /\ PosBuffer._buffer (PosBuffer.updateOffset pb a) = PosBuffer._buffer pb
  /\ PosBuffer.options (PosBuffer.updateOffset pb a) = PosBuffer.options pb.
Proof.
  intros Ha.
  destruct (PosBuffer_updateOffset_position pb a Ha) as [Hp Hv].
  split; [|done]. by apply PosBuffer_updateOffset_twice.
Qed.

Lemma updateOffset_composes_witness :
  PosBuffer.updateOffset
    (PosBuffer.updateOffset
       (PosBuffer.new [Byte.x01; Byte.x02; Byte.x03] PosBuffer.no_options) 3)
    7
  = PosBuffer.updateOffset
      (PosBuffer.new [Byte.x01; Byte.x02; Byte.x03] PosBuffer.no_options)
      (3 + 7).
Proof.
  apply (updateOffset_composes
           (PosBuffer.new [Byte.x01; Byte.x02; Byte.x03] PosBuffer.no_options)
           3 7).
  vm_compute. discriminate.
Defined.

(** ** [skip] *)

Lemma PosBuffer_skip_target pb n :
  PosBuffer.valid pb ->
  PosBuffer.offsetBytes (PosBuffer.updateOffset pb (n * 8))
  = PosBuffer.offsetBytes pb + n
  /\ (0 <= PosBuffer.offsetBytes pb + n ->
      PosBuffer.updateOffset pb (n * 8)
      = PosBuffer.set_offset pb
          {| bytes := PosBuffer.offsetBytes pb + n;
             bits := PosBuffer.offsetBits pb |}).
Proof.
  intros [Hby Hbi].
  assert (Hq : (PosBuffer.offsetBytes pb * 8 + PosBuffer.offsetBits pb + n * 8)
               / 8 = PosBuffer.offsetBytes pb + n).
  { replace (PosBuffer.offsetBytes pb * 8 + PosBuffer.offsetBits pb + n * 8)
      with (PosBuffer.offsetBits pb + (PosBuffer.offsetBytes pb + n) * 8)
      by lia.
    rewrite Z.div_add by lia. rewrite Z.div_small by lia. lia. }
  unfold PosBuffer.updateOffset, PosBuffer.set_offset, PosBuffer.addOffset.
  cbn. split; [exact Hq|]. intros Hn. rewrite Hq. do 2 f_equal.
  rewrite Z.rem_mod_nonneg by lia.
  replace (PosBuffer.offsetBytes pb * 8 + PosBuffer.offsetBits pb + n * 8)
    with (PosBuffer.offsetBits pb + (PosBuffer.offsetBytes pb + n) * 8)
    by lia.
  rewrite Z.mod_add by lia. apply Z.mod_small. lia.
Qed.

(** X2. From a cursor of the data model, [skip(n)] returns exactly when the
    byte offset it reaches, the current one plus [n], is inside the buffer
    (from 0 to the length minus 1): it then moves by whole bytes and keeps
    the bit offset. Otherwise, and so always on an empty buffer and also
    when it reaches the end of the buffer exactly, it throws [Attempt to
    skip outside the buffer]; the byte offset has then been moved all the
    same. *)
Theorem skip_returns_inside_the_buffer_only pb n :
  PosBuffer.valid pb ->
  (0 <= PosBuffer.offsetBytes pb + n < PosBuffer.length pb ->
   PosBuffer.skip_run pb n
   = (Returns tt,
      PosBuffer.set_offset pb
        {| bytes := PosBuffer.offsetBytes pb + n;
           bits := PosBuffer.offsetBits pb |}))
  /\ (~ (0 <= PosBuffer.offsetBytes pb + n < PosBuffer.length pb) ->
      fst (PosBuffer.skip_run pb n)
      = Throws (Error "Attempt to skip outside the buffer")
      /\ PosBuffer.offsetBytes (snd (PosBuffer.skip_run pb n))
         = PosBuffer.offsetBytes pb + n)
  /\ PosBuffer.skip pb n
     = match fst (PosBuffer.skip_run pb n) with
       | Returns _ => Returns (snd (PosBuffer.skip_run pb n))
       | Throws e => Throws e
       end.
Proof.
  intros Hv. destruct (PosBuffer_skip_target pb n Hv) as [Hby Heq].
  assert (Hlen : PosBuffer.length (PosBuffer.updateOffset pb (n * 8))
                 = PosBuffer.length pb) by reflexivity.
  unfold PosBuffer.skip_run, PosBuffer.skip. cbn zeta. rewrite Hby, Hlen.
  split; [|split].
  - intros Hin. rewrite Heq by lia.
    destruct (Z.gtb_spec (PosBuffer.offsetBytes pb + n)
                (PosBuffer.length pb - 1)); [lia|].
    destruct (Z.ltb_spec (PosBuffer.offsetBytes pb + n) 0); [lia|].
    reflexivity.
  - intros Hout.
    destruct (Z.gtb_spec (PosBuffer.offsetBytes pb + n)
                (PosBuffer.length pb - 1));
      destruct (Z.ltb_spec (PosBuffer.offsetBytes pb + n) 0);
      cbn; try done. lia.
  - destruct (_ || _); reflexivity.
Qed.

Lemma skip_returns_inside_the_buffer_only_witness :
  PosBuffer.skip_run
    (PosBuffer.new [Byte.xae; Byte.xc4; Byte.x00; Byte.xc5; Byte.x33]
       PosBuffer.no_options) 4
  = (Returns tt,
     PosBuffer.set_offset
       (PosBuffer.new [Byte.xae; Byte.xc4; Byte.x00; Byte.xc5; Byte.x33]
          PosBuffer.no_options)
       {| bytes := 0 + 4; bits := 0 |})
  /\ fst (PosBuffer.skip_run
            (PosBuffer.new [Byte.xae; Byte.xc4; Byte.x00; Byte.xc5; Byte.x33]
               PosBuffer.no_options) 5)
     = Throws (Error "Attempt to skip outside the buffer")
  /\ fst (PosBuffer.skip_run (PosBuffer.new [] PosBuffer.no_options) 0)
     = Throws (Error "Attempt to skip outside the buffer").
Proof.
  assert (Hv : forall data,
    PosBuffer.valid (PosBuffer.new data PosBuffer.no_options)).
  { intros data. unfold PosBuffer.valid. cbn. lia. }
  split; [|split].
  - apply (skip_returns_inside_the_buffer_only
             (PosBuffer.new [Byte.xae; Byte.xc4; Byte.x00; Byte.xc5; Byte.x33]
                PosBuffer.no_options) 4 (Hv _)).
    vm_compute. split; [discriminate|reflexivity].
  - apply (skip_returns_inside_the_buffer_only
             (PosBuffer.new [Byte.xae; Byte.xc4; Byte.x00; Byte.xc5; Byte.x33]
                PosBuffer.no_options) 5 (Hv _)).
    vm_compute. intros [_ H]. discriminate H.
  - apply (skip_returns_inside_the_buffer_only
             (PosBuffer.new [] PosBuffer.no_options) 0 (Hv _)).
    vm_compute. intros [_ H]. discriminate H.
Defined.

(** X3. Skips add up: [skip(a)] followed by [skip(b)] leaves the object as
    [skip(a + b)] does and ends the same way, whether the first skip
    returned or threw, as long as it did not go before byte 0. In
    particular a skip past the end that threw is undone by skipping
    back. *)
Theorem skips_add_up pb a b :
  PosBuffer.valid pb ->
  0 <= PosBuffer.offsetBytes pb + a ->
  PosBuffer.skip_run (snd (PosBuffer.skip_run pb a)) b
  = PosBuffer.skip_run pb (a + b).
Proof.
  intros Hv Ha.
  assert (Hsnd : forall p k, snd (PosBuffer.skip_run p k)
                             = PosBuffer.updateOffset p (k * 8)).
  { intros p k. unfold PosBuffer.skip_run. cbn zeta.
    by destruct (_ || _). }
  rewrite Hsnd. unfold PosBuffer.skip_run. cbn zeta.
  rewrite (PosBuffer_updateOffset_twice pb (a * 8) (b * 8)).
  2: { destruct Hv as [Hby Hbi]. unfold PosBuffer.position. lia. } by replace (a * 8 + b * 8) with ((a + b) * 8) by lia.
Qed.

Lemma skips_add_up_witness :
  PosBuffer.skip_run
    (snd (PosBuffer.skip_run
            (PosBuffer.new [Byte.xae; Byte.xc4; Byte.x00; Byte.xc5; Byte.x33]
               PosBuffer.no_options) 5))
    (-3)
  = PosBuffer.skip_run
      (PosBuffer.new [Byte.xae; Byte.xc4; Byte.x00; Byte.xc5; Byte.x33]
         PosBuffer.no_options)
      (5 + -3).
Proof.
  apply (skips_add_up
           (PosBuffer.new [Byte.xae; Byte.xc4; Byte.x00; Byte.xc5; Byte.x33]
              PosBuffer.no_options) 5 (-3)).
  - unfold PosBuffer.valid. cbn. lia.
  - vm_compute. discriminate.
Defined.

(** ** [peek] *)

(** X4. [peek] checks its bounds with the current cursor added in: it
    throws [Attempt to peek outside of the buffer] when the byte offset
    asked for is negative or when that offset plus the byte offset the
    cursor would have after reading the type from where it stands now
    exceeds the length; otherwise the type is executed at the offset asked
    for, bit 0. So with the cursor at the start the check is on the offset
    asked for plus the width of the type, and once the cursor has moved a
    peek inside the buffer can be refused. *)
Theorem peek_checks_against_the_cursor pb instruction byteOffset opts :
  (byteOffset < 0
   \/ PosBuffer.length pb
      < byteOffset + PosBuffer.offsetBytes pb
        + (PosBuffer.offsetBits pb + PosBuffer.size0 (instruction opts)) / 8 ->
   PosBuffer.peek pb instruction byteOffset opts
   = Throws (Error "Attempt to peek outside of the buffer"))
  /\ (0 <= byteOffset
      /\ byteOffset + PosBuffer.offsetBytes pb
         + (PosBuffer.offsetBits pb + PosBuffer.size0 (instruction opts)) / 8
         <= PosBuffer.length pb ->
      PosBuffer.peek pb instruction byteOffset opts
      = ('(value, _) ← PosBuffer.execute (instruction opts)
                         (PosBuffer.set_offset pb
                            {| bytes := byteOffset; bits := 0 |});
         Returns value)).
Proof.
  unfold PosBuffer.peek. cbn zeta. rewrite PosBuffer_addOffset_bytes.
  split; intros H.
  - destruct (Z.ltb_spec byteOffset 0); [reflexivity|].
    destruct (Z.gtb_spec
                (byteOffset
                 + (PosBuffer.offsetBytes pb
                    + (PosBuffer.offsetBits pb
                       + PosBuffer.size0 (instruction opts)) / 8))
                (PosBuffer.length pb)); [reflexivity|lia].
  - destruct (Z.ltb_spec byteOffset 0); [lia|].
    destruct (Z.gtb_spec
                (byteOffset
                 + (PosBuffer.offsetBytes pb
                    + (PosBuffer.offsetBits pb
                       + PosBuffer.size0 (instruction opts)) / 8))
                (PosBuffer.length pb)); [lia|reflexivity].
Qed.

Lemma peek_checks_against_the_cursor_witness :
  PosBuffer.peek
    (PosBuffer.new [Byte.xae; Byte.xc4; Byte.x00; Byte.xc5; Byte.x33]
       {| PosBuffer.endianness := None;
          PosBuffer.offset0 := Some {| bytes := 2; bits := 0 |} |})
    (DataType_of UInt8 8) 3 None
  = Throws (Error "Attempt to peek outside of the buffer")
  /\ PosBuffer.peek
       (PosBuffer.new [Byte.xae; Byte.xc4; Byte.x00; Byte.xc5; Byte.x33]
          PosBuffer.no_options)
       (DataType_of UInt8 8) 3 None
     = Returns (VNumber 197).
Proof.
  split.
  - apply (peek_checks_against_the_cursor
             (PosBuffer.new [Byte.xae; Byte.xc4; Byte.x00; Byte.xc5; Byte.x33]
                {| PosBuffer.endianness := None;
                   PosBuffer.offset0 := Some {| bytes := 2; bits := 0 |} |})
             (DataType_of UInt8 8) 3 None).
    right. vm_compute. reflexivity.
  - etransitivity.
    + apply (peek_checks_against_the_cursor
               (PosBuffer.new
                  [Byte.xae; Byte.xc4; Byte.x00; Byte.xc5; Byte.x33]
                  PosBuffer.no_options)
               (DataType_of UInt8 8) 3 None).
      vm_compute. split; discriminate.
    + vm_compute. reflexivity.
Defined.

(** X5. What [peek] leaves behind. What it returns or throws is what
    [peek] above gives. A [peek] that its own check refuses (the offset
    asked for is negative, or that offset plus the byte offset the cursor
    would have after reading the type from where it stands exceeds the
    length) throws [Attempt to peek outside of the buffer] and leaves the
    object exactly as it found it, whatever the data type would do at the
    offset asked for. A [peek] that passes the check and whose data type
    returns gives the value and leaves the object exactly as it found it.
    When the check passes and it is the data type that throws, the object
    is left at the offset peeked at, bit 0: the offset is not set back. *)
Theorem peek_restores_the_cursor pb instruction byteOffset opts :
  fst (PosBuffer.peek_run pb instruction byteOffset opts)
  = PosBuffer.peek pb instruction byteOffset opts
  /\ (byteOffset < 0
      \/ PosBuffer.length pb
         < byteOffset + PosBuffer.offsetBytes pb
           + (PosBuffer.offsetBits pb + PosBuffer.size0 (instruction opts)) / 8
      ->
      PosBuffer.peek_run pb instruction byteOffset opts
      = (Throws (Error "Attempt to peek outside of the buffer"), pb))
  /\ (forall value size,
        0 <= byteOffset ->
        byteOffset + PosBuffer.offsetBytes pb
        + (PosBuffer.offsetBits pb + PosBuffer.size0 (instruction opts)) / 8
        <= PosBuffer.length pb ->
        PosBuffer.execute (instruction opts)
          (PosBuffer.set_offset pb {| bytes := byteOffset; bits := 0 |})
        = Returns (value, size) ->
        PosBuffer.peek_run pb instruction byteOffset opts
        = (Returns value, pb))
  /\ (forall e,
        0 <= byteOffset ->
        byteOffset + PosBuffer.offsetBytes pb
        + (PosBuffer.offsetBits pb + PosBuffer.size0 (instruction opts)) / 8
        <= PosBuffer.length pb ->
        PosBuffer.execute (instruction opts)
          (PosBuffer.set_offset pb {| bytes := byteOffset; bits := 0 |})
        = Throws e ->
        PosBuffer.peek_run pb instruction byteOffset opts
        = (Throws e,
           PosBuffer.set_offset pb {| bytes := byteOffset; bits := 0 |})).
Proof.
  unfold PosBuffer.peek_run, PosBuffer.peek. cbn zeta.
  rewrite PosBuffer_addOffset_bytes.
  destruct (Z.ltb_spec byteOffset 0) as [Hneg|Hpos];
    [|destruct (Z.gtb_spec
                  (byteOffset
                   + (PosBuffer.offsetBytes pb
                      + (PosBuffer.offsetBits pb
                         + PosBuffer.size0 (instruction opts)) / 8))
                  (PosBuffer.length pb)) as [Hout|Hin]];
    cbn [orb].
  - split; [reflexivity|]. split; [reflexivity|].
    split; [intros value size H0; lia|intros e H0; lia].
  - split; [reflexivity|]. split; [reflexivity|].
    split; [intros value size _ Hle; lia|intros e _ Hle; lia].
  - destruct (PosBuffer.execute (instruction opts) _) as [[value0 sz]|e0].
    + split; [reflexivity|]. split; [intros [?|?]; lia|]. split.
      * intros value size _ _ [= <- _]. by destruct pb.
      * intros e _ _ [=].
    + split; [reflexivity|]. split; [intros [?|?]; lia|]. split.
      * intros value size _ _ [=].
      * by intros e _ _ [= ->].
Qed.

Lemma peek_restores_the_cursor_witness :
  PosBuffer.peek_run
    (PosBuffer.new [Byte.xae; Byte.xc4; Byte.x00; Byte.xc5; Byte.x33]
       {| PosBuffer.endianness := Some LE;
          PosBuffer.offset0 := Some {| bytes := 1; bits := 3 |} |})
    (DataType_of UInt16 16) 4 None
  = (Throws (Error "Attempt to peek outside of the buffer"),
     PosBuffer.new [Byte.xae; Byte.xc4; Byte.x00; Byte.xc5; Byte.x33]
       {| PosBuffer.endianness := Some LE;
          PosBuffer.offset0 := Some {| bytes := 1; bits := 3 |} |})
  /\ PosBuffer.peek_run
       (PosBuffer.new [Byte.xae; Byte.xc4; Byte.x00; Byte.xc5; Byte.x33]
          {| PosBuffer.endianness := Some LE;
             PosBuffer.offset0 := Some {| bytes := 1; bits := 3 |} |})
       (DataType_of UInt16 16) 2 None
     = (Returns (VNumber 50432),
        PosBuffer.new [Byte.xae; Byte.xc4; Byte.x00; Byte.xc5; Byte.x33]
          {| PosBuffer.endianness := Some LE;
             PosBuffer.offset0 := Some {| bytes := 1; bits := 3 |} |}).
Proof.
  split.
  - refine (proj1 (proj2
      (peek_restores_the_cursor
         (PosBuffer.new [Byte.xae; Byte.xc4; Byte.x00; Byte.xc5; Byte.x33]
            {| PosBuffer.endianness := Some LE;
               PosBuffer.offset0 := Some {| bytes := 1; bits := 3 |} |})
         (DataType_of UInt16 16) 4 None)) _).
    right. vm_compute. reflexivity.
  - refine (proj1 (proj2 (proj2
      (peek_restores_the_cursor
         (PosBuffer.new [Byte.xae; Byte.xc4; Byte.x00; Byte.xc5; Byte.x33]
            {| PosBuffer.endianness := Some LE;
               PosBuffer.offset0 := Some {| bytes := 1; bits := 3 |} |})
         (DataType_of UInt16 16) 2 None))) (VNumber 50432) 16 _ _ _).
    + vm_compute. discriminate.
    + vm_compute. discriminate.
    + vm_compute. reflexivity.
Defined.

(** ** [pad] *)

(** X6. From a cursor of the data model, [pad] leaves the cursor on a byte
    boundary: the first one at or after the position it started from, less
    than 8 bits further. It does not touch the bytes, and padding again
    changes nothing. *)
Theorem pad_moves_to_the_boundary_at_or_after pb :
  PosBuffer.valid pb ->
  PosBuffer.offsetBits (PosBuffer.pad pb) = 0
  /\ PosBuffer.position (PosBuffer.pad pb)
     = 8 * ((PosBuffer.position pb + 7) / 8)
  /\ PosBuffer.position pb <= PosBuffer.position (PosBuffer.pad pb)
     < PosBuffer.position pb + 8
  /\ PosBuffer._buffer (PosBuffer.pad pb) = PosBuffer._buffer pb
  /\ PosBuffer.pad (PosBuffer.pad pb) = PosBuffer.pad pb.
Proof.
  intros [Hby Hbi]. unfold PosBuffer.pad, PosBuffer.position.
  destruct (decide (PosBuffer.offsetBits pb = 0)) as [H0|Hne].
  - rewrite bool_decide_eq_false_2 by (intros Hc; by apply Hc).
    rewrite bool_decide_eq_false_2 by (intros Hc; by apply Hc).
    rewrite H0.
    replace (PosBuffer.offsetBytes pb * 8 + 0 + 7)
      with (7 + PosBuffer.offsetBytes pb * 8) by lia.
    rewrite Z.div_add by lia. rewrite (Z.div_small 7 8) by lia.
    repeat split; lia.
  - rewrite bool_decide_eq_true_2 by done. cbn.
    rewrite bool_decide_eq_false_2 by (intros Hc; by apply Hc).
    replace (PosBuffer.offsetBytes pb * 8 + PosBuffer.offsetBits pb + 7)
      with ((PosBuffer.offsetBits pb - 1)
            + (PosBuffer.offsetBytes pb + 1) * 8) by lia.
    rewrite Z.div_add by lia. rewrite Z.div_small by lia.
    repeat split; lia.
Qed.

Lemma pad_moves_to_the_boundary_at_or_after_witness :
  PosBuffer.pad
    (PosBuffer.pad
       (PosBuffer.new [Byte.x80; Byte.x02]
          {| PosBuffer.endianness := None;
             PosBuffer.offset0 := Some {| bytes := 0; bits := 1 |} |}))
  = PosBuffer.pad
      (PosBuffer.new [Byte.x80; Byte.x02]
         {| PosBuffer.endianness := None;
            PosBuffer.offset0 := Some {| bytes := 0; bits := 1 |} |}).
Proof.
  apply (pad_moves_to_the_boundary_at_or_after
           (PosBuffer.new [Byte.x80; Byte.x02]
              {| PosBuffer.endianness := None;
                 PosBuffer.offset0 := Some {| bytes := 0; bits := 1 |} |})).
  unfold PosBuffer.valid. cbn. lia.
Defined.

(** ** [readMany] *)

Lemma readMany_length pb dataTypes values pb' :
  PosBuffer.readMany pb dataTypes = Returns (values, pb') ->
  length values = length dataTypes.
Proof.
  revert pb values pb'.
  induction dataTypes as [|[type opts] rest IH]; intros pb values pb'.
  - by intros [= <- <-].
  - cbn [PosBuffer.readMany]. unfold mbind, Outcome_bind.
    destruct (PosBuffer.read pb type opts) as [[v pb1]|e]; [|discriminate].
    destruct (PosBuffer.readMany pb1 rest) as [[vs pb2]|e] eqn:E;
      [|discriminate].
    intros [= <- <-]. cbn. f_equal. by eapply IH.
Qed.

(** X7. [readMany] reads in order, each read starting where the one before
    stopped: reading a list of types that is two lists one after the other
    is reading the first list, then the second from where the first ended,
    and putting the values together; a read that throws ends it with that
    exception. When it returns there is one value per type. *)
Theorem readMany_reads_in_order pb first second :
  PosBuffer.readMany pb (first ++ second)
  = ('(values1, pb1) ← PosBuffer.readMany pb first;
     '(values2, pb2) ← PosBuffer.readMany pb1 second;
     Returns (values1 ++ values2, pb2))
  /\ (forall values pb',
        PosBuffer.readMany pb (first ++ second) = Returns (values, pb') ->
        length values = (length first + length second)%nat).
Proof.
  split.
  - revert pb. induction first as [|[type opts] rest IH]; intros pb.
    + cbn. unfold mbind, Outcome_bind.
      by destruct (PosBuffer.readMany pb second) as [[vs pb2]|e].
    + cbn [app PosBuffer.readMany]. unfold mbind, Outcome_bind.
      destruct (PosBuffer.read pb type opts) as [[v pb1]|e]; [|reflexivity].
      fold (@mbind Outcome _). rewrite IH. unfold mbind, Outcome_bind.
      destruct (PosBuffer.readMany pb1 rest) as [[vs1 pb2]|e];
        [|reflexivity].
      by destruct (PosBuffer.readMany pb2 second) as [[vs2 pb3]|e].
  - intros values pb' H. apply readMany_length in H.
    by rewrite H, length_app.
Qed.

Lemma readMany_reads_in_order_witness :
  length [VNumber 255; VNumber 174; VNumber 50243]
  = (length [(DataType_of UInt8 8, None : option PosBuffer.TypeOptions)]
     + length [(DataType_of UInt8 8, None : option PosBuffer.TypeOptions);
               (DataType_of UInt16 16, None)])%nat.
Proof.
  refine (proj2
    (readMany_reads_in_order
       (PosBuffer.new [Byte.xff; Byte.xae; Byte.xc4; Byte.x43]
          PosBuffer.no_options)
       [(DataType_of UInt8 8, None)]
       [(DataType_of UInt8 8, None); (DataType_of UInt16 16, None)])
    [VNumber 255; VNumber 174; VNumber 50243]
    (PosBuffer.set_offset
       (PosBuffer.new [Byte.xff; Byte.xae; Byte.xc4; Byte.x43]
          PosBuffer.no_options)
       {| bytes := 4; bits := 0 |})
    _).
  vm_compute. reflexivity.
Defined.

(** ** [slice] *)

Lemma Buffer_slice_length b start :
  buffer_length (Buffer_slice b start)
  = if start <? 0
    then Z.min (buffer_length b) (- start)
    else Z.max 0 (buffer_length b - start).
Proof.
  unfold Buffer_slice, buffer_length.
  destruct (Z.ltb_spec start 0); rewrite length_drop; lia.
Qed.

(** X8. [slice(start)] gives a new cursor over the bytes from [start] on:
    it stands at byte 0, bit 0 and reads big-endian, whatever the position
    and the endianness of the buffer it is taken from. For [start] not
    negative it holds the bytes of the buffer from [start] on, the length
    minus [start] of them (none when [start] is past the end); for a
    negative [start] it holds the last [-start] bytes of the buffer, all of
    them when there are fewer. *)
Theorem slice_is_a_fresh_cursor pb start :
  PosBuffer.offset (PosBuffer.slice pb start) = {| bytes := 0; bits := 0 |}
  /\ PosBuffer.mode (PosBuffer.slice pb start) = BE
  /\ PosBuffer.length (PosBuffer.slice pb start)
     = (if start <? 0
        then Z.min (PosBuffer.length pb) (- start)
        else Z.max 0 (PosBuffer.length pb - start))
  /\ (0 <= start ->
      PosBuffer._buffer (PosBuffer.slice pb start)
      = drop (Z.to_nat start) (PosBuffer._buffer pb))
  /\ (start < 0 ->
      PosBuffer._buffer (PosBuffer.slice pb start)
      = drop (Z.to_nat (PosBuffer.length pb + start)) (PosBuffer._buffer pb)
      /\ exists before,
           PosBuffer._buffer pb
           = before ++ PosBuffer._buffer (PosBuffer.slice pb start)
           /\ Z.of_nat (length before)
              = Z.max 0 (PosBuffer.length pb + start)).
Proof.
  split; [reflexivity|]. split; [reflexivity|]. split; [|split].
  - apply Buffer_slice_length.
  - intros Hs. unfold PosBuffer.slice, Buffer_slice. cbn.
    destruct (Z.ltb_spec start 0); [lia|reflexivity].
  - intros Hs.
    assert (Hslice :
      PosBuffer._buffer (PosBuffer.slice pb start)
      = drop (Z.to_nat (PosBuffer.length pb + start)) (PosBuffer._buffer pb)).
    { unfold PosBuffer.slice, Buffer_slice, PosBuffer.length. cbn.
      destruct (Z.ltb_spec start 0); [|lia].
      f_equal. unfold buffer_length. lia. }
    split; [exact Hslice|].
    exists (take (Z.to_nat (PosBuffer.length pb + start))
              (PosBuffer._buffer pb)).
    rewrite Hslice. split; [by rewrite take_drop|].
    rewrite length_take. unfold PosBuffer.length, buffer_length. lia.
Qed.

Lemma slice_is_a_fresh_cursor_witness :
  PosBuffer._buffer
    (PosBuffer.slice
       (PosBuffer.new
          [Byte.xff; Byte.xfe; Byte.xfd; Byte.xfc; Byte.xfb; Byte.xfa]
          {| PosBuffer.endianness := Some LE; PosBuffer.offset0 := None |})
       2)
  = [Byte.xfd; Byte.xfc; Byte.xfb; Byte.xfa]
  /\ PosBuffer._buffer
       (PosBuffer.slice
          (PosBuffer.new
             [Byte.xff; Byte.xfe; Byte.xfd; Byte.xfc; Byte.xfb; Byte.xfa]
             {| PosBuffer.endianness := Some LE; PosBuffer.offset0 := None |})
          (-2))
     = [Byte.xfb; Byte.xfa].
Proof.
  split.
  - refine (proj1 (proj2 (proj2 (proj2
      (slice_is_a_fresh_cursor
         (PosBuffer.new
            [Byte.xff; Byte.xfe; Byte.xfd; Byte.xfc; Byte.xfb; Byte.xfa]
            {| PosBuffer.endianness := Some LE;
               PosBuffer.offset0 := None |})
         2)))) _).
    lia.
  - refine (proj1 (proj2 (proj2 (proj2 (proj2
      (slice_is_a_fresh_cursor
         (PosBuffer.new
            [Byte.xff; Byte.xfe; Byte.xfd; Byte.xfc; Byte.xfb; Byte.xfa]
            {| PosBuffer.endianness := Some LE;
               PosBuffer.offset0 := None |})
         (-2))))) _)).
    lia.
Defined.

(** * More of [payload_spec.ts] *)

(** ** [store] and [Ignorable] *)

Lemma wrapped_not_a_switch name type options m :
  wrapped name type options <> EndiannessInstruction m.
Proof. by destruct type. Qed.

Lemma wrapped_name name type options :
  Instruction_name (wrapped name type options) = Some name.
Proof. by destruct type. Qed.

Lemma wrapped_execute_returns name type options buffer rs h rs' h' :
  Instruction_execute (wrapped name type options) buffer rs h
  = (Returns rs', h') ->
  exists value,
    rs' = set_result rs (set_property (result rs) name value).
Proof.
  destruct type as [self decoder|value]; cbn [wrapped Instruction_execute].
  - unfold TypeInstruction_execute. run_unfold.
    destruct (decoder buffer (offset rs) (mode rs)) as [[decoded consumed]|e];
      [|discriminate].
    cbn beta iota.
    destruct (shouldBe options) as [expected|];
      [destruct (decide _); [|discriminate]|];
      intros [= <- <-]; eauto.
  - intros [= <- <-]. eauto.
Qed.

Lemma step_wrapped_returns name type options buffer st h st1 h1 :
  step buffer (wrapped name type options) st h = (Returns st1, h1) ->
  exists value,
    loop_result st1 = set_property (loop_result st) name value
    /\ loop_storedVars st1 = loop_storedVars st.
Proof.
  rewrite (step_unfold buffer (wrapped _ _ _)) by apply wrapped_not_a_switch.
  destruct (Instruction_execute (wrapped name type options) buffer
              (readerState_of st) h) as [[rs|e] h1'] eqn:E; [|discriminate].
  intros [= <- <-]. cbn [loop_result loop_storedVars].
  apply wrapped_execute_returns in E as [value ->].
  exists value. by split.
Qed.

Lemma delete_property_absent (o : JsObject) name :
  o !! name = None -> delete_property o name = o.
Proof.
  intros Hnone. destruct o as [props plain].
  unfold delete_property. cbn [own ordinary]. f_equal.
  by apply delete_id.
Qed.

(** X9. [store(name, type, options)] does what [field(name, type, options)]
    does and then moves the value: the same bytes are decoded, the reader
    advances by the same size, the same exception is thrown if any; when
    the field returns, [result[name]] is read, deleted from the result
    object and assigned to [storedVars[name]]. For a name that is neither
    the empty string nor [__proto__] the value the field has put under
    [name] so leaves the result object and is found under [name] in the
    stored variables, the other names of both objects staying as they are.
    With the empty string as name nothing is moved: the value stays in the
    result object. With [__proto__] as name, on the plain objects a run
    starts from, nothing is stored at all: the field has created no
    property and the assignment to [storedVars] creates none. *)
Theorem store_is_field_then_move name type options buffer st h :
  step buffer (Ignorable (wrapped name type options)) st h
  = match step buffer (wrapped name type options) st h with
    | (Returns st1, h1) =>
        (Returns
           (if decide (name = "")
            then st1
            else {| reader := reader st1;
                    loop_result := delete_property (loop_result st1) name;
                    loop_storedVars :=
                      set_property (loop_storedVars st1) name
                        (get_property (loop_result st1) name) |}),
         h1)
    | (Throws e, h1) => (Throws e, h1)
    end
  /\ (forall st1 h1 st2 h2,
        name <> "" ->
        name <> "__proto__" ->
        step buffer (wrapped name type options) st h = (Returns st1, h1) ->
        step buffer (Ignorable (wrapped name type options)) st h
        = (Returns st2, h2) ->
        is_Some (loop_result st1 !! name)
        /\ loop_storedVars st2 !! name = loop_result st1 !! name
        /\ loop_result st2 !! name = None
        /\ reader st2 = reader st1
        /\ h2 = h1
        /\ (forall k,
              k <> name ->
              loop_result st2 !! k = loop_result st1 !! k
              /\ loop_storedVars st2 !! k = loop_storedVars st !! k))
  /\ (forall st1 h1,
        name = "__proto__" ->
        ordinary (loop_result st) = true ->
        loop_result st !! "__proto__" = None ->
        ordinary (loop_storedVars st) = true ->
        loop_storedVars st !! "__proto__" = None ->
        step buffer (wrapped name type options) st h = (Returns st1, h1) ->
        step buffer (Ignorable (wrapped name type options)) st h
        = (Returns st1, h1)
        /\ loop_result st1 !! name = None
        /\ loop_storedVars st1 = loop_storedVars st).
Proof.
  assert (Hstep :
    step buffer (Ignorable (wrapped name type options)) st h
    = match step buffer (wrapped name type options) st h with
      | (Returns st1, h1) =>
          (Returns
             (if decide (name = "")
              then st1
              else {| reader := reader st1;
                      loop_result := delete_property (loop_result st1) name;
                      loop_storedVars :=
                        set_property (loop_storedVars st1) name
                          (get_property (loop_result st1) name) |}),
           h1)
      | (Throws e, h1) => (Throws e, h1)
      end).
  { rewrite (step_unfold buffer (Ignorable _)) by discriminate.
    rewrite (step_unfold buffer (wrapped _ _ _))
      by apply wrapped_not_a_switch.
    cbn [Instruction_execute Instruction_size]. run_unfold.
    rewrite wrapped_name.
    destruct (Instruction_execute (wrapped name type options) buffer
                (readerState_of st) h) as [[rs|e] h1]; [|reflexivity].
    unfold Ignorable_move, truthy_name.
    destruct (decide (name = "")); reflexivity. }
  split; [exact Hstep|]. split.
  - intros st1 h1 st2 h2 Hne Hproto H1 H2.
    rewrite Hstep, H1, decide_False in H2 by done.
    injection H2 as <- <-.
    apply step_wrapped_returns in H1 as (value & Hres & Hstored).
    assert (Hhas : loop_result st1 !! name = Some value).
    { rewrite Hres. by apply lookup_set_property_eq. }
    cbn [loop_result loop_storedVars reader].
    split; [eauto|]. split.
    { unfold get_property. rewrite Hhas. by apply lookup_set_property_eq. }
    split.
    { rewrite lookup_delete_property. by rewrite decide_True. }
    split; [reflexivity|]. split; [reflexivity|].
    intros k Hk. split.
    + rewrite lookup_delete_property. by rewrite decide_False.
    + rewrite lookup_set_property_ne by done. by rewrite Hstored.
  - intros st1 h1 -> Hplain Hown Hsplain Hsown H1.
    rewrite Hstep, H1. cbn [decide]. rewrite decide_False by discriminate.
    apply step_wrapped_returns in H1 as (value & Hres & Hstored).
    assert (Hnone : loop_result st1 !! "__proto__" = None).
    { rewrite Hres. unfold set_property. rewrite Hown, Hplain.
      rewrite bool_decide_eq_true_2 by done. cbn [andb].
      by destruct value. }
    assert (Hkept :
      set_property (loop_storedVars st1) "__proto__"
        (get_property (loop_result st1) "__proto__") = loop_storedVars st1).
    { rewrite Hstored. unfold set_property. rewrite Hsown, Hsplain.
      rewrite bool_decide_eq_true_2 by done. cbn [andb].
      unfold get_property. rewrite Hnone.
      by destruct (ordinary (loop_result st1) && _). }
    split; [|by split].
    rewrite Hkept, delete_property_absent by done. by destruct st1.
Qed.

Lemma store_is_field_then_move_witness :
  loop_storedVars
    {| reader := {| byteOffset := 2; bitOffset := 0; _mode := BE |};
       loop_result := {[ "kind" := VNumber 2 ]};
       loop_storedVars := {[ "factor" := VNumber 4 ]} |}
    !! "factor"
  = Some (VNumber 4)
  /\ step [Byte.x02; Byte.x04]
       (Ignorable (wrapped "__proto__" (OfType 2 UInt8) no_options))
       {| reader := {| byteOffset := 1; bitOffset := 0; _mode := BE |};
          loop_result := {[ "kind" := VNumber 2 ]}; loop_storedVars := ∅ |}
       ∅
     = (Returns
          {| reader := {| byteOffset := 2; bitOffset := 0; _mode := BE |};
             loop_result := {[ "kind" := VNumber 2 ]};
             loop_storedVars := ∅ |},
        {[ 2%positive := 8 ]}).
Proof.
  split.
  - refine (proj1 (proj2 (proj1 (proj2
      (store_is_field_then_move "factor" (OfType 2 UInt8) no_options
         [Byte.x02; Byte.x04]
         {| reader := {| byteOffset := 1; bitOffset := 0; _mode := BE |};
            loop_result := {[ "kind" := VNumber 2 ]};
            loop_storedVars := ∅ |}
         ∅))
      {| reader := {| byteOffset := 2; bitOffset := 0; _mode := BE |};
         loop_result := {[ "factor" := VNumber 4; "kind" := VNumber 2 ]};
         loop_storedVars := ∅ |}
      {[ 2%positive := 8 ]}
      {| reader := {| byteOffset := 2; bitOffset := 0; _mode := BE |};
         loop_result := {[ "kind" := VNumber 2 ]};
         loop_storedVars := {[ "factor" := VNumber 4 ]} |}
      {[ 2%positive := 8 ]} _ _ _ _))).
    + discriminate.
    + discriminate.
    + vm_compute. reflexivity.
    + vm_compute. reflexivity.
  - refine (proj1 (proj2 (proj2
      (store_is_field_then_move "__proto__" (OfType 2 UInt8) no_options
         [Byte.x02; Byte.x04]
         {| reader := {| byteOffset := 1; bitOffset := 0; _mode := BE |};
            loop_result := {[ "kind" := VNumber 2 ]};
            loop_storedVars := ∅ |}
         ∅))
      {| reader := {| byteOffset := 2; bitOffset := 0; _mode := BE |};
         loop_result := {[ "kind" := VNumber 2 ]};
         loop_storedVars := ∅ |}
      {[ 2%positive := 8 ]} _ _ _ _ _ _)).
    + reflexivity.
    + reflexivity.
    + vm_compute. reflexivity.
    + reflexivity.
    + vm_compute. reflexivity.
    + vm_compute. reflexivity.
Defined.

(** ** Exceptions *)

(** X10. An exception ends the run. When the instructions run so far
    throw, the run of any program that continues them throws the same
    exception, whatever follows; and when the spec nested in an
    [IfInstruction] whose predicate holds throws, the outer run throws
    that exception and the instructions after the [IfInstruction] are not
    executed. The same goes for an exception thrown by the predicate of an
    [IfInstruction] or by the callback of a [DeriveInstruction]. *)
Theorem exceptions_end_the_run buffer pre post st h e h' :
  (loop buffer pre st h = (Throws e, h') ->
   loop buffer (pre ++ post) st h = (Throws e, h'))
  /\ (forall predicate otherSpec st1 h1,
        loop buffer pre st h = (Returns st1, h1) ->
        predicate (spread (loop_result st1) (loop_storedVars st1))
        = Returns true ->
        PayloadSpec_exec otherSpec
          (Buffer_slice buffer (byteOffset (reader st1))) h1
        = (Throws e, h') ->
        loop buffer (pre ++ IfInstruction predicate otherSpec :: post) st h
        = (Throws e, h'))
  /\ (forall predicate otherSpec st1,
        loop buffer pre st h = (Returns st1, h') ->
        predicate (spread (loop_result st1) (loop_storedVars st1))
        = Throws e ->
        loop buffer (pre ++ IfInstruction predicate otherSpec :: post) st h
        = (Throws e, h'))
  /\ (forall name callback st1,
        loop buffer pre st h = (Returns st1, h') ->
        callback (spread (loop_result st1) (loop_storedVars st1))
        = Throws e ->
        loop buffer (pre ++ DeriveInstruction name callback :: post) st h
        = (Throws e, h')).
Proof.
  split; [|split; [|split]].
  - intros Hpre. unfold loop in *. by rewrite loop_with_app, Hpre.
  - intros predicate otherSpec st1 h1 Hpre Hp Hsub.
    unfold loop in *. rewrite loop_with_app, Hpre.
    cbn [loop_with]. unfold mbind at 1, Run_bind at 1.
    fold (step buffer (IfInstruction predicate otherSpec) st1 h1).
    rewrite step_unfold by discriminate. rewrite execute_If.
    cbn [readerState_of result storedVars offset bytes]. rewrite Hp.
    run_unfold. by rewrite Hsub.
  - intros predicate otherSpec st1 Hpre Hp.
    unfold loop in *. rewrite loop_with_app, Hpre.
    cbn [loop_with]. unfold mbind at 1, Run_bind at 1.
    fold (step buffer (IfInstruction predicate otherSpec) st1 h').
    rewrite step_unfold by discriminate. rewrite execute_If.
    cbn [readerState_of result storedVars offset bytes]. by rewrite Hp.
  - intros name callback st1 Hpre Hcb.
    unfold loop in *. rewrite loop_with_app, Hpre.
    cbn [loop_with]. unfold mbind at 1, Run_bind at 1.
    fold (step buffer (DeriveInstruction name callback) st1 h').
    rewrite step_unfold by discriminate.
    cbn [Instruction_execute]. unfold DeriveInstruction_execute. run_unfold.
    cbn [readerState_of result storedVars]. by rewrite Hcb.
Qed.

Lemma exceptions_end_the_run_witness :
  loop [Byte.x04]
    ([TypeInstruction 1 "frequency" UInt8
        {| then_ := None; shouldBe := Some (VNumber 3) |}]
       ++ [Literal "kind" (VString "install")])
    (initial BE) ∅
  = (Throws (ParsingError "Expected frequency to be 3 but was 4"),
     {[ 1%positive := 8 ]}).
Proof.
  apply (exceptions_end_the_run [Byte.x04]
           [TypeInstruction 1 "frequency" UInt8
              {| then_ := None; shouldBe := Some (VNumber 3) |}]
           [Literal "kind" (VString "install")]
           (initial BE) ∅).
  vm_compute. reflexivity.
Defined.

(** ** [SkipInstruction] and [BufferReader.addOffset] *)

Lemma BufferReader_addOffset_composes r a b :
  0 <= position r + a ->
  BufferReader_addOffset (BufferReader_addOffset r a) b
  = BufferReader_addOffset r (a + b).
Proof.
  intros Ha. destruct (addOffset_position r a Ha) as [Hp _].
  assert (Hadd : forall q x,
    BufferReader_addOffset q x
    = {| byteOffset := (position q + x) / 8;
         bitOffset := Z.rem (position q + x) 8;
         _mode := _mode q |}) by reflexivity.
  rewrite (Hadd (BufferReader_addOffset r a)), Hp.
  rewrite (Hadd r (a + b)), <- Z.add_assoc. reflexivity.
Qed.

Lemma loop_cons buffer i rest st h :
  loop buffer (i :: rest) st h
  = match step buffer i st h with
    | (Returns st', h') => loop buffer rest st' h'
    | (Throws e, h') => (Throws e, h')
    end.
Proof. reflexivity. Qed.

Lemma step_Skip buffer n st h :
  step buffer (SkipInstruction n) st h
  = (Returns {| reader := BufferReader_addOffset (reader st) (n * 8);
                loop_result := loop_result st;
                loop_storedVars := loop_storedVars st |}, h).
Proof. reflexivity. Qed.

(** X11. A [SkipInstruction] never throws and touches neither the result
    object nor the stored variables nor the instruction objects, whatever
    the buffer holds; it only adds its bytes to the offset. Two skips in a
    row, of [a] and of [b] bytes, are one skip of [a + b] bytes, provided
    the first does not move the reader before bit 0. *)
Theorem consecutive_skips_add_up buffer a b rest st h :
  0 <= position (reader st) + a * 8 ->
  loop buffer (SkipInstruction a :: SkipInstruction b :: rest) st h
  = loop buffer (SkipInstruction (a + b) :: rest) st h
  /\ step buffer (SkipInstruction a) st h
     = (Returns {| reader := BufferReader_addOffset (reader st) (a * 8);
                   loop_result := loop_result st;
                   loop_storedVars := loop_storedVars st |}, h)
  /\ position (BufferReader_addOffset (reader st) (a * 8))
     = position (reader st) + a * 8.
Proof.
  intros Ha. split; [|split; [reflexivity|]].
  - rewrite !loop_cons, !step_Skip, loop_cons, step_Skip.
    cbn [reader loop_result loop_storedVars].
    rewrite BufferReader_addOffset_composes by done.
    by replace (a * 8 + b * 8) with ((a + b) * 8) by lia.
  - by apply addOffset_position.
Qed.

Lemma consecutive_skips_add_up_witness :
  loop [Byte.x16; Byte.x00; Byte.x00; Byte.x00; Byte.x01]
    [SkipInstruction 2; SkipInstruction 1;
     TypeInstruction 1 "humidity" UInt8 no_options]
    {| reader := {| byteOffset := 1; bitOffset := 0; _mode := BE |};
       loop_result := ∅; loop_storedVars := ∅ |}
    ∅
  = loop [Byte.x16; Byte.x00; Byte.x00; Byte.x00; Byte.x01]
      [SkipInstruction (2 + 1);
       TypeInstruction 1 "humidity" UInt8 no_options]
      {| reader := {| byteOffset := 1; bitOffset := 0; _mode := BE |};
         loop_result := ∅; loop_storedVars := ∅ |}
      ∅.
Proof.
  refine (proj1
    (consecutive_skips_add_up
       [Byte.x16; Byte.x00; Byte.x00; Byte.x00; Byte.x01] 2 1
       [TypeInstruction 1 "humidity" UInt8 no_options]
       {| reader := {| byteOffset := 1; bitOffset := 0; _mode := BE |};
          loop_result := ∅; loop_storedVars := ∅ |}
       ∅ _)).
  vm_compute. discriminate.
Defined.

(** ** [EndiannessInstruction] *)

(** X12. Of two endianness switches in a row only the second counts, and a
    switch at the end of a program changes nothing in what [read] returns
    or throws, nor in what it leaves in the instruction objects. *)
Theorem only_the_last_switch_counts buffer pre a b post st h m instructions :
  loop buffer
    (pre ++ EndiannessInstruction a :: EndiannessInstruction b :: post) st h
  = loop buffer (pre ++ EndiannessInstruction b :: post) st h
  /\ BufferReader_read m (instructions ++ [EndiannessInstruction a]) buffer h
     = BufferReader_read m instructions buffer h.
Proof.
  split.
  - unfold loop. rewrite !loop_with_app.
    destruct (loop_with Instruction_execute buffer pre st h)
      as [[st1|e] h1]; reflexivity.
  - unfold BufferReader_read, read_with. run_unfold. rewrite loop_with_app.
    destruct (loop_with Instruction_execute buffer instructions (initial m) h)
      as [[st1|e] h1]; reflexivity.
Qed.

(** ** What the result object can hold *)

Lemma step_keeps_hidden buffer i n st h st' h' :
  keeps_hidden i ->
  exposes n i = false ->
  loop_result st !! n = None ->
  step buffer i st h = (Returns st', h') ->
  loop_result st' !! n = None.
Proof.
  intros Hi He Hn. destruct (classic_EndiannessInstruction i) as [[m ->]|Hne].
  - unfold step. rewrite step_Endianness. by intros [= <- <-].
  - rewrite step_unfold by done.
    destruct (Instruction_execute i buffer (readerState_of st) h)
      as [[rs|e] h1] eqn:E; [|discriminate].
    intros [= <- <-]. cbn [loop_result].
    by apply (Hi n buffer (readerState_of st) h rs h1 He Hn E).
Qed.

Lemma loop_keeps_hidden buffer instructions n st h st' h' :
  Forall keeps_hidden instructions ->
  existsb (exposes n) instructions = false ->
  loop_result st !! n = None ->
  loop buffer instructions st h = (Returns st', h') ->
  loop_result st' !! n = None.
Proof.
  intros Hall. revert st h.
  induction Hall as [|i rest Hi _ IH]; intros st h He Hn.
  - by intros [= <- <-].
  - cbn [existsb] in He. apply orb_false_iff in He as [Hei Herest].
    rewrite loop_cons.
    destruct (step buffer i st h) as [[st1|e] h1] eqn:E; [|discriminate].
    apply (IH _ _ Herest). by eapply step_keeps_hidden.
Qed.

Lemma exec_keeps_hidden spec buffer n h sub h' :
  Forall keeps_hidden (PayloadSpec_instructions spec) ->
  existsb (exposes n) (PayloadSpec_instructions spec) = false ->
  PayloadSpec_exec spec buffer h = (Returns sub, h') ->
  sub !! n = None.
Proof.
  intros Hall He. unfold PayloadSpec_exec, BufferReader_read, read_with.
  run_unfold.
  match goal with
  | |- context [loop_with ?e ?b ?l ?s h] =>
      change (loop_with e b l s h) with (loop b l s h);
      destruct (loop b l s h) as [[st'|e'] h1] eqn:E
  end; [|discriminate].
  intros [= <- <-].
  apply (loop_keeps_hidden _ _ n _ _ _ _ Hall He) in E; [done|].
  apply lookup_empty_object.
Qed.

Lemma merge_subResult_keeps_hidden rs (sub : Run JsObject) n h rs' h' :
  (forall r h1, sub h = (Returns r, h1) -> r !! n = None) ->
  result rs !! n = None ->
  merge_subResult rs sub h = (Returns rs', h') ->
  result rs' !! n = None.
Proof.
  intros Hsub Hn. run_unfold.
  destruct (sub h) as [[r|e] h1] eqn:E; [|discriminate].
  intros [= <- <-]. cbn [set_result result].
  rewrite Object_assign_lookup_None; [done|]. by apply (Hsub r h1).
Qed.

Lemma every_instruction_keeps_hidden i : keeps_hidden i.
Proof.
  induction i using Instruction_nested_ind;
    intros n buffer rs h rs' h' He Hn.
  - cbn [exposes] in He. apply bool_decide_eq_false_1 in He.
    cbn [Instruction_execute]. unfold TypeInstruction_execute. run_unfold.
    destruct (decoder buffer (offset rs) (mode rs)) as [[decoded consumed]|e];
      [|discriminate].
    cbn beta iota.
    destruct (shouldBe options) as [expected|];
      [destruct (decide _); [|discriminate]|];
      intros [= <- <-]; cbn [set_result result];
      by rewrite lookup_set_property_ne.
  - cbn [exposes] in He. apply bool_decide_eq_false_1 in He.
    intros [= <- <-]. cbn [set_result result].
    by rewrite lookup_set_property_ne.
  - cbn [exposes] in He. cbn [Instruction_execute]. run_unfold.
    destruct (Instruction_execute i buffer rs h) as [[rs1|e] h1] eqn:E;
      [|discriminate].
    intros [= <- <-]. unfold Ignorable_move.
    apply andb_false_iff in He as [He|He].
    + pose proof (IHi n buffer rs h rs1 h1 He Hn E) as H1.
      destruct (truthy_name (Instruction_name i)) as [k|]; [|exact H1].
      cbn [result]. rewrite lookup_delete_property.
      by destruct (decide (k = n)).
    + apply negb_false_iff, bool_decide_eq_true_1 in He. rewrite He.
      cbn [result]. rewrite lookup_delete_property.
      by rewrite decide_True.
  - by intros [= <- <-].
  - by intros [= <- <-].
  - cbn [Instruction_execute]. unfold PadInstruction_execute. run_unfold.
    by intros [= <- <-].
  - cbn [exposes] in He. apply bool_decide_eq_false_1 in He.
    cbn [Instruction_execute]. unfold DeriveInstruction_execute. run_unfold.
    destruct (callback _) as [value|e]; [|discriminate].
    intros [= <- <-]. cbn [set_result result].
    by rewrite lookup_set_property_ne.
  - cbn [exposes] in He. rewrite execute_If.
    destruct (predicate _) as [[|]|e];
      [|by intros [= <- <-]|discriminate].
    apply merge_subResult_keeps_hidden; [|done]. intros r h1.
    by apply exec_keeps_hidden.
  - cbn [exposes] in He. rewrite execute_Switch.
    destruct (keyFn _) as [keyValue|e]; [|discriminate].
    destruct (switch_branch _ table) as [spec|] eqn:E;
      [|by intros [= <- <-]].
    apply switch_branch_In in E as [k Hin].
    apply merge_subResult_keeps_hidden; [|done]. intros r h1.
    apply exec_keeps_hidden.
    + rewrite Forall_forall in H. apply (H (k, spec)).
      by apply list_elem_of_In.
    + pose proof (existsb_false_In _ _ _ He Hin) as Hspec.
      by destruct spec.
Qed.

(** X13. The result object of [exec] holds only names that the spec
    exposes: a name is absent from it unless some instruction of the spec,
    or of a spec nested in it whose branch is taken, is a field, a literal
    or a derived field of that name that is not wrapped by [store]. So a
    value that is only ever stored never shows in the result, and neither
    does a name the spec does not mention. *)
Theorem result_holds_only_exposed_names spec buffer h r h' n :
  PayloadSpec_exec spec buffer h = (Returns r, h') ->
  existsb (exposes n) (PayloadSpec_instructions spec) = false ->
  r !! n = None.
Proof.
  intros Hrun He. eapply exec_keeps_hidden; [|exact He|exact Hrun].
  apply Forall_forall. intros i _. apply every_instruction_keeps_hidden.
Qed.

Lemma result_holds_only_exposed_names_witness :
  ({[ "firstByte" := VNumber 255 ]} : JsObject) !! "ignoreMe" = None.
Proof.
  apply (result_holds_only_exposed_names
           (PayloadSpec_new None
              |> a_field 1 "firstByte" UInt8
              |> a_store 2 "ignoreMe" UInt8)
           [Byte.xff; Byte.x01] ∅
           {[ "firstByte" := VNumber 255 ]}
           {[ 1%positive := 8; 2%positive := 8 ]} "ignoreMe").
  - vm_compute. reflexivity.
  - vm_compute. reflexivity.
Defined.

(** ** Specs that do not read the buffer *)

Lemma step_ignores_buffer i buffer st h :
  ignores_buffer i ->
  has_field i = false ->
  step buffer i st h = step [] i st h.
Proof.
  intros Hi Hf. destruct (classic_EndiannessInstruction i) as [[m ->]|Hne].
  - reflexivity.
  - rewrite !step_unfold by done.
    by rewrite (Hi Hf buffer (readerState_of st) h).
Qed.

Lemma loop_ignores_buffer instructions buffer st h :
  Forall ignores_buffer instructions ->
  existsb has_field instructions = false ->
  loop buffer instructions st h = loop [] instructions st h.
Proof.
  intros Hall. revert st h.
  induction Hall as [|i rest Hi _ IH]; intros st h Hf; [reflexivity|].
  cbn [existsb] in Hf. apply orb_false_iff in Hf as [Hfi Hfrest].
  rewrite !loop_cons, (step_ignores_buffer i buffer st h Hi Hfi).
  destruct (step [] i st h) as [[st1|e] h1]; [|reflexivity].
  by apply IH.
Qed.

Lemma exec_ignores_buffer spec buffer h :
  Forall ignores_buffer (PayloadSpec_instructions spec) ->
  existsb has_field (PayloadSpec_instructions spec) = false ->
  PayloadSpec_exec spec buffer h = PayloadSpec_exec spec [] h.
Proof.
  intros Hall Hf.
  pose proof (loop_ignores_buffer (PayloadSpec_instructions spec) buffer
                (initial (PayloadSpec_mode spec)) h Hall Hf) as Hloop.
  unfold PayloadSpec_exec, BufferReader_read, read_with. run_unfold.
  unfold loop in Hloop. by rewrite Hloop.
Qed.

Lemma merge_subResult_ext rs (sub1 sub2 : Run JsObject) h :
  sub1 h = sub2 h -> merge_subResult rs sub1 h = merge_subResult rs sub2 h.
Proof. intros H. run_unfold. by rewrite H. Qed.

Lemma every_instruction_ignores_buffer i : ignores_buffer i.
Proof.
  induction i using Instruction_nested_ind; intros Hf buffer rs h;
    try discriminate Hf; try reflexivity.
  - cbn [has_field] in Hf. cbn [Instruction_execute]. run_unfold.
    by rewrite (IHi Hf buffer rs h).
  - cbn [has_field] in Hf. rewrite !execute_If.
    destruct (predicate _) as [[|]|e]; [|reflexivity|reflexivity].
    apply merge_subResult_ext.
    rewrite (exec_ignores_buffer _ (Buffer_slice buffer _)) by done.
    by rewrite (exec_ignores_buffer _ (Buffer_slice [] _)).
  - cbn [has_field] in Hf. rewrite !execute_Switch.
    destruct (keyFn _) as [keyValue|e]; [|reflexivity].
    destruct (switch_branch _ table) as [spec|] eqn:E; [|reflexivity].
    apply switch_branch_In in E as [k Hin].
    assert (Hall : Forall ignores_buffer (PayloadSpec_instructions spec)).
    { rewrite Forall_forall in H. apply (H (k, spec)).
      by apply list_elem_of_In. }
    assert (Hnone : existsb has_field (PayloadSpec_instructions spec) = false).
    { pose proof (existsb_false_In _ _ _ Hf Hin) as Hs. by destruct spec. }
    apply merge_subResult_ext.
    rewrite (exec_ignores_buffer _ (Buffer_slice buffer _)) by done.
    by rewrite (exec_ignores_buffer _ (Buffer_slice [] _)).
Qed.

(** X14. A spec without fields, nowhere in it nor in the specs nested in
    it (so one made of literals, derived fields, skips, pads, endianness
    switches and branches over such specs) does not look at the buffer:
    on every buffer [exec] ends as it does on the empty buffer, with the
    same result object returned or the same exception thrown (one thrown
    by a callback, there being no field to throw one), and the same sizes
    left in the instruction objects. *)
Theorem spec_without_fields_ignores_the_buffer spec buffer h :
  existsb has_field (PayloadSpec_instructions spec) = false ->
  PayloadSpec_exec spec buffer h = PayloadSpec_exec spec [] h.
Proof.
  intros Hf. apply exec_ignores_buffer; [|exact Hf].
  apply Forall_forall. intros i _. apply every_instruction_ignores_buffer.
Qed.

Lemma spec_without_fields_ignores_the_buffer_witness :
  PayloadSpec_exec
    (PayloadSpec_new None
       |> store "pi" (OfPrimitive (VNumber 3)) no_options
       |> skip (inl 4)
       |> derive "res" (fun r => Returns (VNumber (number_of r "pi" - 1)))
       |> if_ (fun _ => Returns true)
            (PayloadSpec_new None
               |> field "kind" (OfPrimitive (VString "install")) no_options))
    [Byte.xff; Byte.x01] ∅
  = (Returns {[ "res" := VNumber 2; "kind" := VString "install" ]}, ∅)
  /\ PayloadSpec_exec
       (PayloadSpec_new None
          |> derive "res" (fun _ => Throws (Error "no factor"))
          |> field "kind" (OfPrimitive (VString "install")) no_options)
       [Byte.xff; Byte.x01] ∅
     = (Throws (Error "no factor"), ∅).
Proof.
  split.
  - etransitivity.
    + refine (spec_without_fields_ignores_the_buffer
        (PayloadSpec_new None
           |> store "pi" (OfPrimitive (VNumber 3)) no_options
           |> skip (inl 4)
           |> derive "res" (fun r => Returns (VNumber (number_of r "pi" - 1)))
           |> if_ (fun _ => Returns true)
                (PayloadSpec_new None
                   |> field "kind" (OfPrimitive (VString "install"))
                        no_options))
        [Byte.xff; Byte.x01] ∅ _).
      reflexivity.
    + vm_compute. reflexivity.
  - etransitivity.
    + refine (spec_without_fields_ignores_the_buffer
        (PayloadSpec_new None
           |> derive "res" (fun _ => Throws (Error "no factor"))
           |> field "kind" (OfPrimitive (VString "install")) no_options)
        [Byte.xff; Byte.x01] ∅ _).
      reflexivity.
    + vm_compute. reflexivity.
Defined.
